(** * YouTube Comments API ([api/index.py]): video-id resolution and comment fetching

    A shallow embedding of [extract_video_id], [get_youtube_comments],
    [get_comments] and [get_comments_by_id], and the properties of the
    specification checked against them.

    - A Python [str] is a sequence of Unicode code points: [list N].
    - [re.search] is embedded as a backtracking matcher for the fragment of
      the [re] syntax the four patterns use; the matcher returns the
      successful end states in the order a backtracking search visits them,
      so that its head is the match [re] reports.
    - The Google API client is an external collaborator: it is a record of
      two oracles ([build] and [execute]), and every call of [execute] is
      logged in a trace. *)

From Stdlib Require Import List NArith ZArith Bool String Ascii Lia.
Import ListNotations.

Set Implicit Arguments.

(* ================================================================== *)
(** ** Python strings *)

Definition char := N.
Definition str := list char.

(** The code points of an ASCII literal. *)
Definition py (s : string) : str := map N_of_ascii (list_ascii_of_string s).

Fixpoint str_eqb (a b : str) : bool :=
  match a, b with
  | [], [] => true
  | x :: a', y :: b' => N.eqb x y && str_eqb a' b'
  | _, _ => false
  end.

Definition NL : char := 10%N.

(* ================================================================== *)
(** ** The fragment of [re] used by the patterns *)

Module Re.

Inductive regex : Type :=
| Chr (c : char)                      (* a literal character              *)
| Cls (ranges : list (char * char))   (* [a-bc-d...]                      *)
| Dot                                 (* .   (no DOTALL: not a newline)   *)
| Cat (r1 r2 : regex)                 (* r1r2                             *)
| Alt (r1 r2 : regex)                 (* r1|r2                            *)
| Rep (n : nat) (r : regex)           (* r{n}                             *)
| Star (r : regex)                    (* r*  (greedy)                     *)
| Grp (k : nat) (r : regex)           (* (r) as capturing group number k  *)
| Bol                                 (* ^   (no MULTILINE)               *)
| Eol.                                (* $   (no MULTILINE)               *)

(** A literal string, character by character; [hd] is its first character. *)
Fixpoint lit_from (c : char) (s : str) : regex :=
  match s with
  | [] => Chr c
  | d :: s' => Cat (Chr c) (lit_from d s')
  end.

Definition lit (s : string) : regex :=
  match py s with
  | [] => Rep 0 Dot
  | c :: s' => lit_from c s'
  end.

(** Matcher state: the position, the input from that position on, and the
    groups captured so far. *)
Record mstate : Type := MState {
  pos : nat;
  rest : str;
  caps : list (nat * str)
}.

Definition advance (st : mstate) (t : str) : mstate :=
  MState (S (pos st)) t (caps st).

Definition in_ranges (ranges : list (char * char)) (c : char) : bool :=
  existsb (fun r => N.leb (fst r) c && N.leb c (snd r)) ranges.

Definition one (p : char -> bool) (st : mstate) : list mstate :=
  match rest st with
  | c :: t => if p c then [advance st t] else []
  | [] => []
  end.

Fixpoint rep (n : nat) (f : mstate -> list mstate) (st : mstate) : list mstate :=
  match n with
  | O => [st]
  | S n' => flat_map (rep n' f) (f st)
  end.

(** Greedy iteration: every further round first, the empty iteration last.
    A round that consumes nothing is not iterated again; [S (length rest)]
    rounds of fuel are therefore never exhausted. *)
Fixpoint star (fuel : nat) (f : mstate -> list mstate) (st : mstate) : list mstate :=
  match fuel with
  | O => [st]
  | S fuel' =>
      flat_map (fun st' => if Nat.ltb (pos st) (pos st') then star fuel' f st' else [])
               (f st) ++ [st]
  end.

Definition capture (k : nat) (st st' : mstate) : mstate :=
  MState (pos st') (rest st')
         ((k, firstn (pos st' - pos st) (rest st)) :: caps st').

Fixpoint m (r : regex) (st : mstate) : list mstate :=
  match r with
  | Chr c => one (N.eqb c) st
  | Cls ranges => one (in_ranges ranges) st
  | Dot => one (fun c => negb (N.eqb c NL)) st
  | Cat r1 r2 => flat_map (m r2) (m r1 st)
  | Alt r1 r2 => m r1 st ++ m r2 st
  | Rep n r' => rep n (m r') st
  | Star r' => star (S (List.length (rest st))) (m r') st
  | Grp k r' => map (capture k st) (m r' st)
  | Bol => if Nat.eqb (pos st) 0 then [st] else []
  (* at the end of the string, or before a newline that ends it *)
  | Eol => match rest st with
           | [] => [st]
           | c :: [] => if N.eqb c NL then [st] else []
           | _ => []
           end
  end.

(** [re.search]: the first start position, from the left, at which the
    pattern matches; the end position of the string is tried as well. *)
Fixpoint search_at (r : regex) (p : nat) (t : str) : option mstate :=
  match m r (MState p t []) with
  | st :: _ => Some st
  | [] => match t with
          | [] => None
          | _ :: t' => search_at r (S p) t'
          end
  end.

Definition search (r : regex) (s : str) : option mstate := search_at r 0 s.

Fixpoint assoc (k : nat) (l : list (nat * str)) : option str :=
  match l with
  | [] => None
  | (k', v) :: l' => if Nat.eqb k k' then Some v else assoc k l'
  end.

(** [match.group(k)]; [None] when the group took no part in the match. *)
Definition group (k : nat) (mt : mstate) : option str := assoc k (caps mt).

End Re.

(* ================================================================== *)
(** ** [extract_video_id] *)

(** [[0-9A-Za-z_-]] *)
Definition id_class : list (char * char) :=
  [(48, 57); (65, 90); (97, 122); (95, 95); (45, 45)]%N.

Definition id_token : Re.regex := Re.Grp 1 (Re.Rep 11 (Re.Cls id_class)).

(** [(?:v=|\/)([0-9A-Za-z_-]{11}).*] *)
Definition pattern1 : Re.regex :=
  Re.Cat (Re.Alt (Re.lit "v=") (Re.lit "/")) (Re.Cat id_token (Re.Star Re.Dot)).

(** [(?:embed\/)([0-9A-Za-z_-]{11})] *)
Definition pattern2 : Re.regex := Re.Cat (Re.lit "embed/") id_token.

(** [(?:watch\?v=)([0-9A-Za-z_-]{11})] *)
Definition pattern3 : Re.regex := Re.Cat (Re.lit "watch?v=") id_token.

(** [^([0-9A-Za-z_-]{11})$] *)
Definition pattern4 : Re.regex := Re.Cat Re.Bol (Re.Cat id_token Re.Eol).

Definition patterns : list Re.regex := [pattern1; pattern2; pattern3; pattern4].

(** The [for pattern in patterns] loop. *)
Fixpoint first_match (ps : list Re.regex) (url : str) : option str :=
  match ps with
  | [] => None
  | p :: ps' =>
      match Re.search p url with
      | Some mt => Re.group 1 mt
      | None => first_match ps' url
      end
  end.

Definition extract_video_id (url : str) : option str := first_match patterns url.

(* ================================================================== *)
(** ** What the four patterns compute, without the matcher *)

Local Open Scope string_scope.
Local Open Scope list_scope.

(** Membership in [[0-9A-Za-z_-]]. *)
Definition idchar (c : char) : bool := Re.in_ranges id_class c.

(** A video-id token: exactly 11 characters of the class. *)
Definition is_token (x : str) : Prop :=
  List.length x = 11 /\ forallb idchar x = true.

(** The 11 characters at the head of [t], when all are in the class. *)
Definition take_token (t : str) : option str :=
  if Nat.leb 11 (List.length t) && forallb idchar (firstn 11 t)
  then Some (firstn 11 t) else None.

Fixpoint prefix (l t : str) : bool :=
  match l, t with
  | [], _ => true
  | c :: l', d :: t' => N.eqb c d && prefix l' t'
  | _ :: _, [] => false
  end.

(** The token that follows the literal [l] at the head of [t]. *)
Definition after (l : str) (t : str) : option str :=
  if prefix l t then take_token (skipn (List.length l) t) else None.

(** Rule 1 at one position: [v=] is tried before [/]. *)
Definition sep_token (t : str) : option str :=
  match after (py "v=") t with
  | Some x => Some x
  | None => after (py "/") t
  end.

(** The leftmost position at which [f] succeeds. *)
Fixpoint leftmost (f : str -> option str) (t : str) : option str :=
  match f t with
  | Some x => Some x
  | None => match t with
            | [] => None
            | _ :: t' => leftmost f t'
            end
  end.

(** Rule 4: the whole input, up to one final newline. *)
Definition bare_id (s : str) : option str :=
  match take_token s with
  | Some x => match skipn 11 s with
              | [] => Some x
              | c :: [] => if N.eqb c NL then Some x else None
              | _ => None
              end
  | None => None
  end.

(** [s] has a [/] or a [v=] that an 11-character token follows. *)
Definition qualifying_separator (s : str) : Prop :=
  exists pre sep x post,
    s = pre ++ sep ++ x ++ post /\ (sep = py "v=" \/ sep = py "/") /\ is_token x.

(* ================================================================== *)
(** ** Exceptions, JSON values and the external client *)

(** An instance of a subclass of [Exception]: its class and [str(e)]. *)
Record exn : Type := Exn { exn_class : str; exn_text : str }.

(** [fastapi.HTTPException]. *)
Record HTTPException : Type := HTTPError { status_code : Z; detail : str }.

(** Outcome of a computation that may raise. *)
Inductive res (E A : Type) : Type :=
| Raise (e : E)
| Return (a : A).
Arguments Raise {E A} e.
Arguments Return {E A} a.

Definition rbind {E A B} (c : res E A) (k : A -> res E B) : res E B :=
  match c with
  | Raise e => Raise e
  | Return a => k a
  end.

(** The objects [request.execute()] returns: parsed JSON.  A dict is an
    association list searched from the left. *)
#[warnings="-register-all"]
Inductive json : Type :=
| JNull
| JBool (b : bool)
| JInt (z : Z)
| JStr (s : str)
| JList (l : list json)
| JDict (d : list (str * json)).

Fixpoint lookup (k : str) (d : list (str * json)) : option json :=
  match d with
  | [] => None
  | (k', v) :: d' => if str_eqb k k' then Some v else lookup k d'
  end.

(** The parameters of [commentThreads().list(...)], and the key the service
    object was built with. *)
Record list_request : Type := ListRequest {
  developerKey : str;
  part : str;
  videoId : str;
  maxResults : Z;
  order : str;
  textFormat : str
}.

(** The process environment and the collaborators of the program: the
    credential read once at start-up, the API client, and the exceptions the
    interpreter raises on a value of the wrong type. *)
Record env : Type := Env {
  YOUTUBE_API_KEY : str;
  (* build('youtube', 'v3', developerKey=key) *)
  build : str -> res exn unit;
  (* youtube.commentThreads().list(...).execute() *)
  execute : list_request -> res exn json;
  (* v.get(...) on a v that has no such method *)
  attribute_error : json -> exn;
  (* v[k], k a str, on a v that is not a dict *)
  subscript_error : json -> exn;
  (* for ... in v on a v that is not iterable *)
  iter_error : json -> exn
}.

(** Every call of [execute], oldest first. *)
Definition trace := list list_request.

(** Computations that may raise and that log their external calls. *)
Definition M (E A : Type) : Type := trace -> res E A * trace.

Definition ret {E A} (a : A) : M E A := fun tr => (Return a, tr).

Definition raise {E A} (e : E) : M E A := fun tr => (Raise e, tr).

Definition bind {E A B} (c : M E A) (k : A -> M E B) : M E B :=
  fun tr => match c tr with
            | (Raise e, tr') => (Raise e, tr')
            | (Return a, tr') => k a tr'
            end.

Definition lift {E A} (c : res E A) : M E A := fun tr => (c, tr).

(** [try: c except Exception as e: h e]. *)
Definition try_except {E E' A} (c : M E A) (h : E -> M E' A) : M E' A :=
  fun tr => match c tr with
            | (Raise e, tr') => h e tr'
            | (Return a, tr') => (Return a, tr')
            end.

Declare Scope m_scope.
Delimit Scope m_scope with m.
Notation "x <- c ;; k" := (bind c (fun x => k))
  (at level 61, c at next level, right associativity) : m_scope.
Notation "x <~ c ;; k" := (rbind c (fun x => k))
  (at level 61, c at next level, right associativity) : m_scope.

Definition call_execute (w : env) (rq : list_request) : M exn json :=
  fun tr => (execute w rq, tr ++ [rq]).

(** [repr] of a key that holds no quote, backslash or control character. *)
Definition repr (k : str) : str := py "'" ++ k ++ py "'".

Definition KeyError (k : str) : exn := Exn (py "KeyError") (repr k).

(** [v[k]] *)
Definition getitem (w : env) (v : json) (k : str) : res exn json :=
  match v with
  | JDict d => match lookup k d with
               | Some x => Return x
               | None => Raise (KeyError k)
               end
  | _ => Raise (subscript_error w v)
  end.

(** [response.get('items', [])] *)
Definition get_items (w : env) (response : json) : res exn json :=
  match response with
  | JDict d => match lookup (py "items") d with
               | Some x => Return x
               | None => Return (JList [])
               end
  | _ => Raise (attribute_error w response)
  end.

(** The values [for item in v] runs through. *)
Definition iterate (w : env) (v : json) : res exn (list json) :=
  match v with
  | JList l => Return l
  | JDict d => Return (map (fun kv => JStr (fst kv)) d)
  | JStr s => Return (map (fun c => JStr [c]) s)
  | _ => Raise (iter_error w v)
  end.

(** The items [for item in response.get('items', [])] runs through. *)
Definition items_of (w : env) (response : json) : res exn (list json) :=
  (v <~ get_items w response ;; iterate w v)%m.

(* ================================================================== *)
(** ** [get_youtube_comments] *)

Record comment : Type := Comment {
  author : json;
  text : json;
  likes : json;
  published_at : json;
  reply_count : json
}.

Definition mock_comment : comment :=
  {| author := JStr (py "Demo User");
     text := JStr (py "This is a demo comment. Set YOUTUBE_API_KEY environment variable to fetch real comments.");
     likes := JInt 0;
     published_at := JStr (py "2024-01-01T00:00:00Z");
     reply_count := JInt 0 |}.

(** The body of the [for] loop: the record built from one item. *)
Definition comment_of_item (w : env) (item : json) : res exn comment :=
  (s <~ getitem w item (py "snippet") ;;
   t <~ getitem w s (py "topLevelComment") ;;
   c <~ getitem w t (py "snippet") ;;
   a <~ getitem w c (py "authorDisplayName") ;;
   x <~ getitem w c (py "textDisplay") ;;
   l <~ getitem w c (py "likeCount") ;;
   p <~ getitem w c (py "publishedAt") ;;
   s' <~ getitem w item (py "snippet") ;;
   r <~ getitem w s' (py "totalReplyCount") ;;
   Return (Comment a x l p r))%m.

(** The [for] loop: [comments] is the list appended to so far. *)
Fixpoint collect (w : env) (items : list json) (comments : list comment)
  : res exn (list comment) :=
  match items with
  | [] => Return comments
  | item :: items' =>
      (c <~ comment_of_item w item ;;
       collect w items' (comments ++ [c]))%m
  end.

Definition the_request (w : env) (video_id : str) (max_results : Z) : list_request :=
  {| developerKey := YOUTUBE_API_KEY w;
     part := py "snippet";
     videoId := video_id;
     maxResults := Z.min max_results 100;
     order := py "relevance";
     textFormat := py "plainText" |}.

(** The body of the [try] block. *)
Definition fetch_comments (w : env) (video_id : str) (max_results : Z)
  : M exn (list comment) :=
  (_ <- lift (build w (YOUTUBE_API_KEY w)) ;;
   response <- call_execute w (the_request w video_id max_results) ;;
   items <- lift (items_of w response) ;;
   lift (collect w items []))%m.

(** The exception the [except] clause raises. *)
Definition fetch_error (e : exn) : HTTPException :=
  HTTPError 500 (py "Error fetching comments: " ++ exn_text e).

Definition get_youtube_comments (w : env) (video_id : str) (max_results : Z)
  : M HTTPException (list comment) :=
  match YOUTUBE_API_KEY w with
  | [] => ret [mock_comment]
  | _ :: _ =>
      try_except (fetch_comments w video_id max_results)
        (fun e => raise (fetch_error e))
  end.

(* ================================================================== *)
(** ** The two comment routes *)

Record body : Type := Body {
  video_id : str;
  comment_count : Z;
  comments : list comment
}.

Definition len {A} (l : list A) : Z := Z.of_nat (List.length l).

(** [if not video_id] takes the error branch on [None] and on the empty
    string. *)
Definition get_comments (w : env) (url : str) (max_results : Z)
  : M HTTPException body :=
  let video_id := extract_video_id url in
  match video_id with
  | Some ((_ :: _) as vid) =>
      (comments <- get_youtube_comments w vid max_results ;;
       ret (Body vid (len comments) comments))%m
  | _ =>
      raise (HTTPError 400
        (py "Invalid YouTube URL or video ID. Please provide a valid YouTube video URL."))
  end.

Definition get_comments_by_id (w : env) (video_id : str) (max_results : Z)
  : M HTTPException body :=
  if negb (Nat.eqb (List.length video_id) 11) then
    raise (HTTPError 400
      (py "Invalid video ID format. YouTube video IDs are 11 characters long."))
  else
    (comments <- get_youtube_comments w video_id max_results ;;
     ret (Body video_id (len comments) comments))%m.

(** The status of the response the framework sends: 200 for a returned
    body, the exception's code otherwise. *)
Definition status {A} (r : res HTTPException A) : Z :=
  match r with
  | Return _ => 200
  | Raise e => status_code e
  end.

(** What both routes do once they hold a video id. *)
Definition respond (w : env) (vid : str) (max_results : Z) : M HTTPException body :=
  (comments <- get_youtube_comments w vid max_results ;;
   ret (Body vid (len comments) comments))%m.

(* ================================================================== *)
(** ** Sample inputs *)

(** A video id followed by a line feed, as [?url=dQw4w9WgXcQ%0A] decodes. *)
Definition id_and_newline : str := py "dQw4w9WgXcQ" ++ [NL].

(** A client that is built without error and answers every call with
    [response]. *)
Definition client (key : str) (response : res exn json) : env :=
  {| YOUTUBE_API_KEY := key;
     build := fun _ => Return tt;
     execute := fun _ => response;
     attribute_error := fun _ => Exn (py "AttributeError") (py "no attribute 'get'");
     subscript_error := fun _ => Exn (py "TypeError") (py "not subscriptable");
     iter_error := fun _ => Exn (py "TypeError") (py "not iterable") |}.

(** A comment thread as the API returns it. *)
Definition thread (name body when : string) (liked replies : Z) : json :=
  JDict [(py "snippet",
          JDict [(py "topLevelComment",
                  JDict [(py "snippet",
                          JDict [(py "authorDisplayName", JStr (py name));
                                 (py "textDisplay", JStr (py body));
                                 (py "likeCount", JInt liked);
                                 (py "publishedAt", JStr (py when))])]);
                 (py "totalReplyCount", JInt replies)])].

(** A response whose second item has no [snippet]. *)
Definition broken_response : json :=
  JDict [(py "items",
          JList [thread "Ann" "First" "2024-05-01T10:00:00Z" 3 1; JDict []])].

(* ================================================================== *)
(** ** [health_check] *)




(* ================================================================== *)
(** ** Shapes of inputs and responses *)

(** A character that is neither [/] nor [=]. *)
Definition plain (c : char) : bool := negb (N.eqb c 47) && negb (N.eqb c 61).

(** [None], a [bool] or an [int]: a value [for] cannot run through. *)
Definition scalar (v : json) : Prop :=
  match v with
  | JNull | JBool _ | JInt _ => True
  | _ => False
  end.

(** An empty list, dict or string. *)
Definition empty (v : json) : Prop :=
  v = JList [] \/ v = JDict [] \/ v = JStr [].

(** The keys [comment_of_item] reads. *)
Definition item_keys : list str :=
  [py "snippet"; py "topLevelComment"; py "authorDisplayName"; py "textDisplay";
   py "likeCount"; py "publishedAt"; py "totalReplyCount"].

(* ================================================================== *)
(** * Properties *)

(** ** The matcher on the building blocks of the patterns *)

Section Matcher.
Import Re.

Lemma flat_map_single {A B} (f : A -> list B) (a : A) : flat_map f [a] = f a.
Proof. simpl. apply app_nil_r. Qed.

(** [n] repetitions of a one-character test consume [n] characters that
    pass it, and do not backtrack. *)
Lemma rep_one (p : char -> bool) (n : nat) : forall st,
  rep n (one p) st =
  if Nat.leb n (List.length (rest st)) && forallb p (firstn n (rest st))
  then [MState (n + pos st) (skipn n (rest st)) (caps st)] else [].
Proof.
  induction n as [|n IH]; intros [q t cs]; simpl.
  - reflexivity.
  - unfold one; simpl. destruct t as [|c t]; simpl; [reflexivity|].
    destruct (p c); simpl; [|now rewrite andb_false_r].
    rewrite app_nil_r, IH. simpl. rewrite Nat.add_succ_r. reflexivity.
Qed.

Lemma m_lit_from (s : str) : forall c st,
  m (lit_from c s) st =
  if prefix (c :: s) (rest st)
  then [MState (List.length (c :: s) + pos st)
               (skipn (List.length (c :: s)) (rest st)) (caps st)]
  else [].
Proof.
  induction s as [|d s IH]; intros c [q t cs].
  - simpl. unfold one; simpl. destruct t as [|x t]; [reflexivity|].
    destruct (N.eqb c x); simpl; [|reflexivity].
    reflexivity.
  - change (m (lit_from c (d :: s)) (MState q t cs))
      with (flat_map (m (lit_from d s)) (one (N.eqb c) (MState q t cs))).
    unfold one; simpl rest. destruct t as [|x t]; [reflexivity|].
    simpl prefix. destruct (N.eqb c x); [|reflexivity].
    rewrite flat_map_single, IH. unfold advance; simpl.
    destruct t as [|y t]; [reflexivity|].
    destruct (N.eqb d y && prefix s t); [|reflexivity].
    rewrite Nat.add_succ_r. reflexivity.
Qed.

(** The capturing group of 11 class characters. *)
Lemma m_id_token (st : mstate) :
  m id_token st =
  match take_token (rest st) with
  | Some x => [MState (11 + pos st) (skipn 11 (rest st)) ((1, x) :: caps st)]
  | None => []
  end.
Proof.
  unfold id_token, take_token.
  change (m (Grp 1 (Rep 11 (Cls id_class))) st)
    with (map (capture 1 st) (rep 11 (one idchar) st)).
  rewrite rep_one.
  destruct (Nat.leb 11 (List.length (rest st)) && forallb idchar (firstn 11 (rest st)));
    [|reflexivity].
  unfold capture; cbn [map pos rest caps].
  replace (11 + pos st - pos st) with 11 by lia.
  reflexivity.
Qed.

(** A greedy [.*] never fails, and leaves the groups as they are. *)
Lemma star_one (p : char -> bool) (fuel : nat) : forall st,
  exists st' l, star fuel (one p) st = st' :: l /\ caps st' = caps st.
Proof.
  induction fuel as [|fuel IH]; intros st.
  - exists st, []. split; reflexivity.
  - cbn [star].
    assert (H : one p st = match rest st with
                           | [] => []
                           | c :: t => if p c then [advance st t] else []
                           end) by reflexivity.
    rewrite H; clear H. destruct (rest st) as [|c t].
    + exists st, []. split; reflexivity.
    + destruct (p c).
      * cbn [flat_map]. rewrite app_nil_r.
        replace (Nat.ltb (pos st) (pos (advance st t))) with true
          by (symmetry; apply Nat.ltb_lt; simpl; lia).
        destruct (IH (advance st t)) as (st' & l & E & C).
        rewrite E. exists st', (l ++ [st]). split; [reflexivity|exact C].
      * exists st, []. split; reflexivity.
Qed.

End Matcher.

(** ** The patterns, one start position at a time *)

Section Patterns.
Import Re.

Lemma prefix_split (l : str) : forall t,
  prefix l t = true -> t = l ++ skipn (List.length l) t.
Proof.
  induction l as [|c l IH]; intros [|d t] H; simpl in *; try reflexivity; try discriminate.
  apply andb_true_iff in H. destruct H as [H1 H2].
  apply N.eqb_eq in H1. subst d. f_equal. apply IH, H2.
Qed.

Lemma prefix_app (l t : str) : prefix l (l ++ t) = true.
Proof.
  induction l as [|c l IH]; simpl; [reflexivity|].
  rewrite N.eqb_refl. exact IH.
Qed.

Lemma take_token_some (t x : str) :
  take_token t = Some x -> is_token x /\ t = x ++ skipn 11 t.
Proof.
  unfold take_token, is_token.
  destruct (Nat.leb 11 (List.length t)) eqn:L; [|discriminate].
  destruct (forallb idchar (firstn 11 t)) eqn:F; [|discriminate].
  cbn [andb]. intros H. assert (E : x = firstn 11 t) by congruence. subst x. clear H.
  apply Nat.leb_le in L. split; [split|].
  - rewrite length_firstn. lia.
  - exact F.
  - symmetry. apply firstn_skipn.
Qed.

Lemma take_token_app (x post : str) :
  is_token x -> take_token (x ++ post) = Some x.
Proof.
  intros [L F]. unfold take_token.
  assert (E : firstn 11 (x ++ post) = x).
  { rewrite <- L, firstn_app, Nat.sub_diag, firstn_all. simpl. apply app_nil_r. }
  rewrite E, F, length_app, L. reflexivity.
Qed.

(** What follows the separator in rule 1: the group, then a [.*] that
    cannot fail. *)
Lemma token_then_any (st : mstate) :
  option_map (group 1) (hd_error (m (Cat id_token (Star Dot)) st)) =
  option_map Some (take_token (rest st)).
Proof.
  change (m (Cat id_token (Star Dot)) st)
    with (flat_map (m (Star Dot)) (m id_token st)).
  rewrite m_id_token. destruct (take_token (rest st)) as [x|]; [|reflexivity].
  rewrite flat_map_single.
  match goal with |- context [m (Star Dot) ?s] =>
    destruct (star_one (fun c => negb (N.eqb c NL)) (S (List.length (rest s))) s)
      as (st' & l & E & C);
    change (m (Star Dot) s)
      with (star (S (List.length (rest s))) (one (fun c => negb (N.eqb c NL))) s)
  end.
  rewrite E. simpl. unfold group. rewrite C. reflexivity.
Qed.

Lemma token_alone (st : mstate) :
  option_map (group 1) (hd_error (m id_token st)) =
  option_map Some (take_token (rest st)).
Proof.
  rewrite m_id_token. destruct (take_token (rest st)); reflexivity.
Qed.

(** A literal in front of a tail [r] whose first result is known. *)
Lemma after_literal (c : char) (s : str) (r : regex) (f : str -> option str) :
  (forall st, option_map (group 1) (hd_error (m r st)) = option_map Some (f (rest st))) ->
  forall st,
    option_map (group 1) (hd_error (m (Cat (lit_from c s) r) st)) =
    option_map Some (if prefix (c :: s) (rest st)
                     then f (skipn (List.length (c :: s)) (rest st)) else None).
Proof.
  intros H st.
  change (m (Cat (lit_from c s) r) st) with (flat_map (m r) (m (lit_from c s) st)).
  rewrite m_lit_from. destruct (prefix (c :: s) (rest st)); [|reflexivity].
  rewrite flat_map_single, H. reflexivity.
Qed.

(** Two literals tried in turn, of which at most one is a prefix. *)
Lemma after_either (c1 c2 : char) (s1 s2 : str) (r : regex) :
  (forall st, option_map (group 1) (hd_error (m r st)) =
              option_map Some (take_token (rest st))) ->
  forall st,
    (prefix (c1 :: s1) (rest st) = true -> prefix (c2 :: s2) (rest st) = false) ->
    option_map (group 1)
      (hd_error (m (Cat (Alt (lit_from c1 s1) (lit_from c2 s2)) r) st)) =
    option_map Some (match after (c1 :: s1) (rest st) with
                     | Some x => Some x
                     | None => after (c2 :: s2) (rest st)
                     end).
Proof.
  intros H st X.
  change (m (Cat (Alt (lit_from c1 s1) (lit_from c2 s2)) r) st)
    with (flat_map (m r) (m (lit_from c1 s1) st ++ m (lit_from c2 s2) st)).
  rewrite !m_lit_from. unfold after.
  destruct (prefix (c1 :: s1) (rest st)).
  - rewrite (X eq_refl). cbn [app]. rewrite flat_map_single, H. cbn [rest].
    destruct (take_token (skipn (List.length (c1 :: s1)) (rest st))); reflexivity.
  - destruct (prefix (c2 :: s2) (rest st)); [|reflexivity].
    cbn [app]. rewrite flat_map_single, H. reflexivity.
Qed.

Lemma pattern1_at (p : nat) (t : str) :
  option_map (group 1) (hd_error (m pattern1 (MState p t []))) =
  option_map Some (sep_token t).
Proof.
  refine (@after_either 118%N 47%N [61%N] [] _ token_then_any (MState p t []) _).
  cbn [rest]. destruct t as [|d t]; [discriminate|]. cbn [prefix].
  destruct (N.eqb_spec 118 d); [subst d; reflexivity|discriminate].
Qed.

Lemma pattern2_at (p : nat) (t : str) :
  option_map (group 1) (hd_error (m pattern2 (MState p t []))) =
  option_map Some (after (py "embed/") t).
Proof.
  exact (@after_literal 101%N [109; 98; 101; 100; 47]%N _ _ token_alone (MState p t [])).
Qed.

Lemma pattern3_at (p : nat) (t : str) :
  option_map (group 1) (hd_error (m pattern3 (MState p t []))) =
  option_map Some (after (py "watch?v=") t).
Proof.
  exact (@after_literal 119%N [97; 116; 99; 104; 63; 118; 61]%N _ _ token_alone (MState p t [])).
Qed.

Lemma pattern4_at (p : nat) (t : str) :
  option_map (group 1) (hd_error (m pattern4 (MState p t []))) =
  option_map Some (if Nat.eqb p 0 then bare_id t else None).
Proof.
  set (st := MState p t []).
  change (m pattern4 st)
    with (flat_map (fun s => flat_map (m Eol) (m id_token s))
                   (if Nat.eqb p 0 then [st] else [])).
  destruct (Nat.eqb p 0); [|reflexivity].
  rewrite flat_map_single, m_id_token. unfold bare_id. change (rest st) with t.
  destruct (take_token t) as [x|]; [|reflexivity].
  rewrite flat_map_single. cbn [m rest].
  destruct (skipn 11 t) as [|c [|c' u]]; try reflexivity.
  destruct (N.eqb c NL); reflexivity.
Qed.

End Patterns.

(** ** [re.search] and the loop over the patterns *)

Section Search.
Import Re.

(** When the first result of [r] at every start position is given by [f],
    the search reports the leftmost success of [f]. *)
Lemma search_at_leftmost (r : regex) (f : str -> option str) :
  (forall p t, option_map (group 1) (hd_error (m r (MState p t []))) =
               option_map Some (f t)) ->
  forall t p, option_map (group 1) (search_at r p t) = option_map Some (leftmost f t).
Proof.
  intros H t. induction t as [|c t IH]; intros p; cbn [search_at leftmost];
    specialize (H p); [specialize (H [])|specialize (H (c :: t))];
    destruct (m r _) as [|st l]; cbn [hd_error option_map] in H.
  - destruct (f []); [discriminate|reflexivity].
  - destruct (f []); [exact H|discriminate].
  - destruct (f (c :: t)); [discriminate|apply IH].
  - destruct (f (c :: t)); [exact H|discriminate].
Qed.

(** [^] fails at every position but the first. *)
Lemma search_at_pattern4_later (t : str) :
  forall p, search_at pattern4 (S p) t = None.
Proof.
  induction t as [|c t IH]; intros p; cbn [search_at];
    [pose proof (pattern4_at (S p) []) as H|pose proof (pattern4_at (S p) (c :: t)) as H];
    cbn [Nat.eqb] in H; destruct (m pattern4 _); try discriminate.
  - reflexivity.
  - apply IH.
Qed.

Lemma search_pattern4 (s : str) :
  option_map (group 1) (search pattern4 s) = option_map Some (bare_id s).
Proof.
  unfold search. pose proof (pattern4_at 0 s) as H. cbn [Nat.eqb] in H.
  destruct s as [|c t]; cbn [search_at]; destruct (m pattern4 _) as [|st l];
    cbn [hd_error option_map] in H.
  - destruct (bare_id []); [discriminate|reflexivity].
  - destruct (bare_id []); [exact H|discriminate].
  - destruct (bare_id (c :: t)); [discriminate|].
    rewrite search_at_pattern4_later. reflexivity.
  - destruct (bare_id (c :: t)); [exact H|discriminate].
Qed.

(** One round of the loop. *)
Lemma loop_step (r : regex) (o next : option str) (url : str) :
  option_map (group 1) (search r url) = option_map Some o ->
  match search r url with
  | Some mt => group 1 mt
  | None => next
  end = match o with
        | Some x => Some x
        | None => next
        end.
Proof.
  destruct (search r url), o; cbn [option_map]; intros H;
    try discriminate; try reflexivity.
  now injection H.
Qed.

(** [extract_video_id] without the matcher. *)
Lemma extract_video_id_unfold (url : str) :
  extract_video_id url =
  match leftmost sep_token url with
  | Some x => Some x
  | None =>
      match leftmost (after (py "embed/")) url with
      | Some x => Some x
      | None =>
          match leftmost (after (py "watch?v=")) url with
          | Some x => Some x
          | None => bare_id url
          end
      end
  end.
Proof.
  unfold extract_video_id, patterns. cbn [first_match].
  rewrite (@loop_step pattern4 (bare_id url) None url (search_pattern4 url)).
  rewrite (@loop_step pattern3 (leftmost (after (py "watch?v=")) url) _ url
             (search_at_leftmost _ _ pattern3_at url 0)).
  rewrite (@loop_step pattern2 (leftmost (after (py "embed/")) url) _ url
             (search_at_leftmost _ _ pattern2_at url 0)).
  rewrite (@loop_step pattern1 (leftmost sep_token url) _ url
             (search_at_leftmost _ _ pattern1_at url 0)).
  destruct (bare_id url); reflexivity.
Qed.

End Search.

(** ** Tokens and separators *)

Section Tokens.

Lemma leftmost_some (f : str -> option str) (t : str) (x : str) :
  leftmost f t = Some x -> exists pre t', t = pre ++ t' /\ f t' = Some x.
Proof.
  induction t as [|c t IH]; cbn [leftmost].
  - destruct (f []) eqn:E; [|discriminate]. intros H. exists [], []. split; [reflexivity|congruence].
  - destruct (f (c :: t)) eqn:E.
    + intros H. exists [], (c :: t). split; [reflexivity|congruence].
    + intros H. destruct (IH H) as (pre & t' & -> & F).
      exists (c :: pre), t'. split; [reflexivity|exact F].
Qed.

Lemma leftmost_found (f : str -> option str) (pre t' : str) :
  f t' <> None -> leftmost f (pre ++ t') <> None.
Proof.
  intros F. induction pre as [|c pre IH]; cbn [app].
  - destruct t'; cbn [leftmost]; destruct (f _); congruence.
  - cbn [leftmost]. destruct (f (c :: pre ++ t')); [discriminate|exact IH].
Qed.

Lemma after_some (l t x : str) :
  after l t = Some x -> exists post, t = l ++ x ++ post /\ is_token x.
Proof.
  unfold after. destruct (prefix l t) eqn:P; [|discriminate].
  intros H. apply take_token_some in H. destruct H as [T E].
  exists (skipn 11 (skipn (List.length l) t)). split; [|exact T].
  rewrite <- E. apply prefix_split, P.
Qed.

Lemma after_app (l x post : str) :
  is_token x -> after l (l ++ x ++ post) = Some x.
Proof.
  intros T. unfold after. rewrite prefix_app.
  rewrite skipn_app, Nat.sub_diag, skipn_all. cbn [skipn app].
  apply take_token_app, T.
Qed.

Lemma sep_token_some (t x : str) :
  sep_token t = Some x ->
  exists sep post, t = sep ++ x ++ post /\ (sep = py "v=" \/ sep = py "/") /\ is_token x.
Proof.
  unfold sep_token. destruct (after (py "v=") t) as [y|] eqn:A.
  - intros H. assert (y = x) by congruence. subst y.
    destruct (after_some _ _ A) as (post & E & T).
    exists (py "v="), post. auto.
  - intros H. destruct (after_some _ _ H) as (post & E & T).
    exists (py "/"), post. auto.
Qed.

(** Rule 1 finds a token exactly when the input has a qualifying separator. *)
Lemma leftmost_sep_token_iff (s : str) :
  leftmost sep_token s <> None <-> qualifying_separator s.
Proof.
  split.
  - destruct (leftmost sep_token s) as [x|] eqn:E; [intros _|congruence].
    destruct (leftmost_some _ _ E) as (pre & t' & -> & F).
    destruct (sep_token_some _ F) as (sep & post & -> & S & T).
    exists pre, sep, x, post. auto.
  - intros (pre & sep & x & post & -> & S & T).
    apply leftmost_found. unfold sep_token.
    destruct S as [-> | ->].
    + rewrite after_app by exact T. discriminate.
    + destruct (after (py "v=") (py "/" ++ x ++ post)); [discriminate|].
      rewrite after_app by exact T. discriminate.
Qed.

(** Rules 2 and 3 match only where rule 1 does. *)
Lemma after_slash_subsumed (l s : str) :
  leftmost (after (l ++ py "/")) s <> None -> leftmost sep_token s <> None.
Proof.
  destruct (leftmost (after (l ++ py "/")) s) as [x|] eqn:E; [intros _|congruence].
  destruct (leftmost_some _ _ E) as (pre & t' & -> & F).
  destruct (after_some _ _ F) as (post & -> & T).
  apply leftmost_sep_token_iff.
  exists (pre ++ l), (py "/"), x, post. rewrite <- !app_assoc. auto.
Qed.

Lemma after_v_eq_subsumed (l s : str) :
  leftmost (after (l ++ py "v=")) s <> None -> leftmost sep_token s <> None.
Proof.
  destruct (leftmost (after (l ++ py "v=")) s) as [x|] eqn:E; [intros _|congruence].
  destruct (leftmost_some _ _ E) as (pre & t' & -> & F).
  destruct (after_some _ _ F) as (post & -> & T).
  apply leftmost_sep_token_iff.
  exists (pre ++ l), (py "v="), x, post. rewrite <- !app_assoc. auto.
Qed.

(** Rules 2 and 3 never decide: the result is rule 1's, or rule 4's. *)
Lemma extract_video_id_two_rules (url : str) :
  extract_video_id url =
  match leftmost sep_token url with
  | Some x => Some x
  | None => bare_id url
  end.
Proof.
  rewrite extract_video_id_unfold.
  destruct (leftmost sep_token url) eqn:E1; [reflexivity|].
  destruct (leftmost (after (py "embed/")) url) eqn:E2.
  - exfalso. apply (@after_slash_subsumed (py "embed") url); [|exact E1].
    change (py "embed" ++ py "/") with (py "embed/"). congruence.
  - destruct (leftmost (after (py "watch?v=")) url) eqn:E3; [|reflexivity].
    exfalso. apply (@after_v_eq_subsumed (py "watch?") url); [|exact E1].
    change (py "watch?" ++ py "v=") with (py "watch?v="). congruence.
Qed.

Lemma bare_id_some (s x : str) :
  bare_id s = Some x -> is_token x /\ (s = x \/ s = x ++ [NL]).
Proof.
  unfold bare_id. destruct (take_token s) as [y|] eqn:T; [|discriminate].
  apply take_token_some in T. destruct T as [T E].
  destruct (skipn 11 s) as [|c [|c' u]] eqn:K; try discriminate.
  - intros H. assert (y = x) by congruence. subst y.
    rewrite app_nil_r in E. auto.
  - destruct (N.eqb_spec c NL); [|discriminate].
    intros H. assert (y = x) by congruence. subst y c. auto.
Qed.

Lemma bare_id_token (x : str) : is_token x -> bare_id x = Some x.
Proof.
  intros T. unfold bare_id.
  pose proof (take_token_app [] T) as E. rewrite app_nil_r in E. rewrite E.
  destruct T as [L _]. rewrite skipn_all2 by lia. reflexivity.
Qed.

(** Whatever [extract_video_id] returns is a token. *)
Lemma extract_video_id_token (url x : str) :
  extract_video_id url = Some x -> is_token x.
Proof.
  rewrite extract_video_id_two_rules.
  destruct (leftmost sep_token url) as [y|] eqn:E.
  - intros H. assert (y = x) by congruence. subst y.
    destruct (leftmost_some _ _ E) as (pre & t' & _ & F).
    destruct (sep_token_some _ F) as (_ & _ & _ & _ & T). exact T.
  - intros H. apply bare_id_some in H. tauto.
Qed.

End Tokens.

(* ================================================================== *)
(** ** The resolver *)

Section Resolver.
Import Re.

(** Every pattern captures an 11-character token in group 1. *)
Lemma search_group_token (k : nat) (r : regex) (url : str) (mt : mstate) :
  nth_error patterns k = Some r ->
  search r url = Some mt ->
  exists x, group 1 mt = Some x /\ is_token x.
Proof.
  intros K S.
  assert (H : exists o, option_map (group 1) (search r url) = option_map Some o /\
                        forall x, o = Some x -> is_token x).
  { destruct k as [|[|[|[|k]]]]; cbn [nth_error patterns] in K.
    - injection K as <-. exists (leftmost sep_token url). split.
      + apply (search_at_leftmost _ _ pattern1_at).
      + intros x L. destruct (leftmost_some _ _ L) as (pre & t' & _ & F).
        destruct (sep_token_some _ F) as (_ & _ & _ & _ & T). exact T.
    - injection K as <-. exists (leftmost (after (py "embed/")) url). split.
      + apply (search_at_leftmost _ _ pattern2_at).
      + intros x L. destruct (leftmost_some _ _ L) as (pre & t' & _ & F).
        destruct (after_some _ _ F) as (_ & _ & T). exact T.
    - injection K as <-. exists (leftmost (after (py "watch?v=")) url). split.
      + apply (search_at_leftmost _ _ pattern3_at).
      + intros x L. destruct (leftmost_some _ _ L) as (pre & t' & _ & F).
        destruct (after_some _ _ F) as (_ & _ & T). exact T.
    - injection K as <-. exists (bare_id url). split.
      + apply search_pattern4.
      + intros x L. apply bare_id_some in L. tauto.
    - destruct k; discriminate K. }
  destruct H as (o & E & T). rewrite S in E.
  destruct o as [x|]; cbn [option_map] in E; [|discriminate].
  exists x. split; [congruence|auto].
Qed.

(** The loop returns at the first pattern that matches. *)
Lemma first_match_at (url : str) (r : regex) (mt : mstate) :
  forall (ps : list regex) (k : nat),
    nth_error ps k = Some r ->
    (forall j r', j < k -> nth_error ps j = Some r' -> search r' url = None) ->
    search r url = Some mt ->
    first_match ps url = group 1 mt.
Proof.
  induction ps as [|p ps IH]; intros [|k] K E S; try discriminate K.
  - injection K as ->. cbn [first_match]. rewrite S. reflexivity.
  - cbn [first_match]. rewrite (E 0 p) by (try reflexivity; lia).
    apply (IH k K); [|exact S].
    intros j r' J N. apply (E (Datatypes.S j) r'); [lia|exact N].
Qed.

(** C1: [extract_video_id] tries [patterns] = rule 1, rule 2, rule 3, rule 4
    in this order and returns group 1 of the first one that matches, which
    is an 11-character token of the class: when the rules before rule [k]
    do not match and rule [k] does, the result is rule [k]'s capture,
    whatever the rules after it would capture. *)
Theorem extract_video_id_first_rule_wins
    (url : str) (k : nat) (r : regex) (mt : mstate) :
  nth_error patterns k = Some r ->
  (forall j r', j < k -> nth_error patterns j = Some r' -> search r' url = None) ->
  search r url = Some mt ->
  exists x, group 1 mt = Some x /\ is_token x /\ extract_video_id url = Some x.
Proof.
  intros K E S.
  destruct (search_group_token k url K S) as (x & G & T).
  exists x. split; [exact G|]. split; [exact T|].
  unfold extract_video_id. rewrite (@first_match_at url r mt patterns k K E S). exact G.
Qed.

(** Rule 1 wins over rule 2 where both match and capture different tokens. *)
Lemma extract_video_id_first_rule_wins_witness :
  exists x,
    group 1 (MState 30 [] [(1, py "AAAAAAAAAAA")]) = Some x /\
    is_token x /\
    extract_video_id (py "/AAAAAAAAAAA/embed/BBBBBBBBBBB") = Some x.
Proof.
  apply (@extract_video_id_first_rule_wins
           (py "/AAAAAAAAAAA/embed/BBBBBBBBBBB") 0 pattern1).
  - reflexivity.
  - intros j r' J. lia.
  - vm_compute. reflexivity.
Defined.

Lemma leftmost_skip (f : str -> option str) (c : char) (t : str) :
  f (c :: t) = None -> leftmost f (c :: t) = leftmost f t.
Proof. intros H. cbn [leftmost]. rewrite H. reflexivity. Qed.

Lemma leftmost_here (f : str -> option str) (t x : str) :
  f t = Some x -> leftmost f t = Some x.
Proof. intros H. destruct t; cbn [leftmost]; rewrite H; reflexivity. Qed.

Lemma token_elements (x : str) :
  is_token x ->
  exists a b c d e f g h i j k, x = [a; b; c; d; e; f; g; h; i; j; k].
Proof.
  intros [L _].
  do 11 (destruct x as [|? x]; [discriminate L|]).
  destruct x; [|discriminate L]. repeat eexists.
Qed.

Lemma sep_token_at_separator (sep x post : str) :
  sep = py "v=" \/ sep = py "/" -> is_token x -> sep_token (sep ++ x ++ post) = Some x.
Proof.
  intros S T. unfold sep_token. destruct S as [-> | ->].
  - rewrite after_app by exact T. reflexivity.
  - destruct (after (py "v=") (py "/" ++ x ++ post)) eqn:A.
    + apply after_some in A. destruct A as (q & A & _). discriminate A.
    + apply after_app, T.
Qed.

(** C5: for every 11-character token X of the class,
    [https://www.youtube.com/watch?v=X] and [https://youtu.be/X] both
    resolve to X. *)
Theorem extract_video_id_watch_and_short_url (x : str) :
  is_token x ->
  extract_video_id (py "https://www.youtube.com/watch?v=" ++ x) = Some x /\
  extract_video_id (py "https://youtu.be/" ++ x) = Some x.
Proof.
  intros T. rewrite !extract_video_id_two_rules.
  assert (V : sep_token (py "v=" ++ x) = Some x).
  { pose proof (@sep_token_at_separator (py "v=") x [] (or_introl eq_refl) T) as H.
    rewrite app_nil_r in H. exact H. }
  assert (S : sep_token (py "/" ++ x) = Some x).
  { pose proof (@sep_token_at_separator (py "/") x [] (or_intror eq_refl) T) as H.
    rewrite app_nil_r in H. exact H. }
  destruct (token_elements T) as (a & b & c & d & e & f & g & h & i & j & k & ->).
  cbn [py list_ascii_of_string map app] in V, S.
  split.
  - change (py "https://www.youtube.com/watch?v=" ++ [a; b; c; d; e; f; g; h; i; j; k])
      with (py "https://www.youtube.com/watch?" ++ py "v=" ++ [a; b; c; d; e; f; g; h; i; j; k]).
    cbn [py list_ascii_of_string map app].
    repeat (rewrite leftmost_skip by reflexivity).
    rewrite (leftmost_here _ _ V). reflexivity.
  - change (py "https://youtu.be/" ++ [a; b; c; d; e; f; g; h; i; j; k])
      with (py "https://youtu.be" ++ py "/" ++ [a; b; c; d; e; f; g; h; i; j; k]).
    cbn [py list_ascii_of_string map app].
    repeat (rewrite leftmost_skip by reflexivity).
    rewrite (leftmost_here _ _ S). reflexivity.
Qed.

Lemma extract_video_id_watch_and_short_url_witness :
  is_token (py "dQw4w9WgXcQ") /\
  extract_video_id (py "https://www.youtube.com/watch?v=" ++ py "dQw4w9WgXcQ")
    = Some (py "dQw4w9WgXcQ") /\
  extract_video_id (py "https://youtu.be/" ++ py "dQw4w9WgXcQ")
    = Some (py "dQw4w9WgXcQ").
Proof.
  split.
  - split; reflexivity.
  - apply extract_video_id_watch_and_short_url. split; reflexivity.
Defined.

(** A string of class characters has no separator for rule 1. *)
Lemma idchars_no_separator (s : str) :
  forallb idchar s = true -> leftmost sep_token s = None.
Proof.
  intros F. destruct (leftmost sep_token s) as [y|] eqn:E; [exfalso|reflexivity].
  assert (N : leftmost sep_token s <> None) by congruence.
  apply leftmost_sep_token_iff in N.
  destruct N as (pre & sep & x & post & -> & S & _).
  rewrite !forallb_app in F.
  apply andb_true_iff in F. destruct F as [_ F].
  apply andb_true_iff in F. destruct F as [F _].
  destruct S as [-> | ->]; vm_compute in F; discriminate F.
Qed.

(** C6: a bare video id, 11 characters of the class, resolves to itself. *)
Theorem extract_video_id_bare (x : str) :
  is_token x -> extract_video_id x = Some x.
Proof.
  intros T. rewrite extract_video_id_two_rules.
  rewrite idchars_no_separator by apply T.
  apply bare_id_token, T.
Qed.

Lemma extract_video_id_bare_witness :
  is_token (py "dQw4w9WgXcQ") /\
  extract_video_id (py "dQw4w9WgXcQ") = Some (py "dQw4w9WgXcQ").
Proof.
  split.
  - split; reflexivity.
  - apply extract_video_id_bare. split; reflexivity.
Defined.

(** The empty string does not resolve. *)
Lemma extract_video_id_empty : extract_video_id [] = None.
Proof. reflexivity. Qed.

(** The result is [None] exactly when none of the four patterns matches. *)
Lemma extract_video_id_none_iff (url : str) :
  extract_video_id url = None <->
  (forall r, In r patterns -> search r url = None).
Proof.
  split.
  - intros N r I.
    destruct (In_nth_error _ _ I) as (k & K).
    revert r I K. induction k as [k IH] using lt_wf_ind. intros r I K.
    destruct (search r url) as [mt|] eqn:S; [exfalso|reflexivity].
    assert (E : forall j r', j < k -> nth_error patterns j = Some r' ->
                             search r' url = None).
    { intros j r' J K'. apply (IH j J r'); [|exact K'].
      apply (nth_error_In _ _ K'). }
    destruct (search_group_token k url K S) as (x & G & _).
    unfold extract_video_id in N.
    rewrite (@first_match_at url r mt patterns k K E S) in N. congruence.
  - intros H. unfold extract_video_id, patterns. cbn [first_match].
    rewrite !H by (cbn [In patterns]; tauto). reflexivity.
Qed.

(** Rule 1 matches exactly the inputs with a qualifying separator. *)
Lemma search_pattern1_iff (s : str) :
  search pattern1 s <> None <-> qualifying_separator s.
Proof.
  rewrite <- leftmost_sep_token_iff.
  pose proof (search_at_leftmost _ _ pattern1_at s 0) as H.
  fold (search pattern1 s) in H.
  destruct (search pattern1 s), (leftmost sep_token s); cbn [option_map] in H;
    try discriminate; split; congruence.
Qed.

(** Rule 4 matches exactly a token, and a token followed by one newline. *)
Lemma search_pattern4_iff (s : str) :
  search pattern4 s <> None <->
  is_token s \/ exists x, is_token x /\ s = x ++ [NL].
Proof.
  pose proof (search_pattern4 s) as H. split.
  - intros N. destruct (search pattern4 s); [|congruence].
    destruct (bare_id s) as [x|] eqn:B; cbn [option_map] in H; [|discriminate].
    apply bare_id_some in B. destruct B as [T [-> | ->]]; [left; exact T|].
    right. exists x. auto.
  - intros T. assert (B : bare_id s <> None).
    { destruct T as [T | (x & T & ->)].
      - rewrite bare_id_token by exact T. discriminate.
      - unfold bare_id. rewrite take_token_app by exact T.
        destruct T as [L _]. rewrite skipn_app, L, Nat.sub_diag, skipn_all2 by lia.
        cbn [app skipn]. rewrite N.eqb_refl. discriminate. }
    destruct (search pattern4 s), (bare_id s); cbn [option_map] in H;
      try discriminate; congruence.
Qed.

Example resolves_embed_url :
  extract_video_id (py "https://www.youtube.com/embed/dQw4w9WgXcQ")
    = Some (py "dQw4w9WgXcQ").
Proof. reflexivity. Qed.

Example resolves_up_to_query :
  extract_video_id (py "https://youtu.be/dQw4w9WgXcQ?t=42") = Some (py "dQw4w9WgXcQ").
Proof. reflexivity. Qed.

Example no_url_no_id : extract_video_id (py "not-a-url") = None.
Proof. reflexivity. Qed.

Example twelve_characters : extract_video_id (py "dQw4w9WgXcQx") = None.
Proof. reflexivity. Qed.

(** Without a qualifying separator, only a token, or a token and one final
    newline, resolves. *)
Lemma extract_video_id_not_found (s : str) :
  ~ qualifying_separator s ->
  ~ is_token s ->
  (forall x, is_token x -> s <> x ++ [NL]) ->
  extract_video_id s = None.
Proof.
  intros Q T N. rewrite extract_video_id_two_rules.
  destruct (leftmost sep_token s) eqn:E.
  - exfalso. apply Q, leftmost_sep_token_iff. congruence.
  - destruct (bare_id s) as [x|] eqn:B; [exfalso|reflexivity].
    apply bare_id_some in B. destruct B as [X [-> | ->]]; [auto|].
    apply (N x X). reflexivity.
Qed.

End Resolver.

(* ================================================================== *)
(** ** The fetcher *)

Section Fetcher.

Variable w : env.

(** The loop returns the records of all the items, in order, after those
    it started with. *)
Lemma collect_return (items : list json) :
  forall acc cs,
    collect w items acc = Return cs ->
    exists cs', cs = acc ++ cs' /\
                Forall2 (fun item c => comment_of_item w item = Return c) items cs'.
Proof.
  induction items as [|item items IH]; intros acc cs; cbn [collect].
  - intros H. exists []. split; [rewrite app_nil_r; congruence|constructor].
  - unfold rbind at 1. destruct (comment_of_item w item) as [e|c] eqn:C; [discriminate|].
    intros H. destruct (IH _ _ H) as (cs' & -> & F).
    exists (c :: cs'). split; [rewrite <- app_assoc; reflexivity|].
    constructor; assumption.
Qed.

(** An item that cannot be mapped fails the loop, however many items before
    it were mapped. *)
Lemma collect_raise (good : list json) (bad : json) (more : list json) (e : exn) :
  Forall (fun item => exists c, comment_of_item w item = Return c) good ->
  comment_of_item w bad = Raise e ->
  forall acc, collect w (good ++ bad :: more) acc = Raise e.
Proof.
  intros G B. induction G as [|item good [c C] G IH]; intros acc; cbn [collect app].
  - rewrite B. reflexivity.
  - rewrite C. cbn [rbind]. apply IH.
Qed.

(** [get_youtube_comments] with a credential, case by case. *)
Lemma get_youtube_comments_configured (vid : str) (mr : Z) (tr : trace) :
  YOUTUBE_API_KEY w <> [] ->
  get_youtube_comments w vid mr tr =
  match build w (YOUTUBE_API_KEY w) with
  | Raise e => (Raise (fetch_error e), tr)
  | Return _ =>
      match execute w (the_request w vid mr) with
      | Raise e => (Raise (fetch_error e), tr ++ [the_request w vid mr])
      | Return response =>
          match rbind (items_of w response) (fun items => collect w items []) with
          | Raise e => (Raise (fetch_error e), tr ++ [the_request w vid mr])
          | Return cs => (Return cs, tr ++ [the_request w vid mr])
          end
      end
  end.
Proof.
  intros K. unfold get_youtube_comments.
  destruct (YOUTUBE_API_KEY w) as [|k0 key] eqn:E; [congruence|]. rewrite <- E.
  unfold try_except, fetch_comments, bind, lift, call_execute, raise, items_of.
  fold (fetch_error).
  destruct (build w (YOUTUBE_API_KEY w)) as [e|u]; [reflexivity|].
  destruct (execute w (the_request w vid mr)) as [e|response]; [reflexivity|].
  destruct (get_items w response) as [e|v]; [reflexivity|]. cbn [rbind].
  destruct (iterate w v) as [e|items]; [reflexivity|]. cbn [rbind].
  destruct (collect w items []) as [e|cs]; reflexivity.
Qed.

Lemma get_youtube_comments_unconfigured (vid : str) (mr : Z) (tr : trace) :
  YOUTUBE_API_KEY w = [] ->
  get_youtube_comments w vid mr tr = (Return [mock_comment], tr).
Proof. intros K. unfold get_youtube_comments. rewrite K. reflexivity. Qed.

(** The fetcher fails with status 500 only. *)
Lemma get_youtube_comments_raise (vid : str) (mr : Z) (tr tr' : trace) (h : HTTPException) :
  get_youtube_comments w vid mr tr = (Raise h, tr') ->
  exists e, h = fetch_error e.
Proof.
  destruct (YOUTUBE_API_KEY w) as [|k0 key] eqn:E.
  - rewrite get_youtube_comments_unconfigured by exact E. discriminate.
  - rewrite get_youtube_comments_configured by congruence.
    destruct (build w (YOUTUBE_API_KEY w)) as [e|u].
    { intros H. exists e. congruence. }
    destruct (execute w (the_request w vid mr)) as [e|response].
    { intros H. exists e. congruence. }
    destruct (rbind (items_of w response) (fun items => collect w items [])) as [e|cs].
    { intros H. exists e. congruence. }
    discriminate.
Qed.

(** At most one call goes out. *)
Lemma get_youtube_comments_trace (vid : str) (mr : Z) (tr : trace) :
  snd (get_youtube_comments w vid mr tr) = tr \/
  snd (get_youtube_comments w vid mr tr) = tr ++ [the_request w vid mr].
Proof.
  destruct (YOUTUBE_API_KEY w) as [|k0 key] eqn:E.
  - rewrite get_youtube_comments_unconfigured by exact E. left; reflexivity.
  - rewrite get_youtube_comments_configured by congruence.
    destruct (build w (YOUTUBE_API_KEY w)) as [e|u]; [left; reflexivity|].
    destruct (execute w (the_request w vid mr)) as [e|response]; [right; reflexivity|].
    destruct (rbind (items_of w response) (fun items => collect w items []));
      right; reflexivity.
Qed.

(** C2: with no credential, for every video id and every [max_results]
    (those of 1..100 among them), the fetch returns exactly one record, with
    author "Demo User", likes 0, reply count 0 and the timestamp
    2024-01-01T00:00:00Z; the record is the same for all arguments, and no
    call goes out. *)
Theorem get_youtube_comments_no_credential (vid : str) (mr : Z) (tr : trace) :
  YOUTUBE_API_KEY w = [] ->
  exists c,
    get_youtube_comments w vid mr tr = (Return [c], tr) /\
    author c = JStr (py "Demo User") /\
    likes c = JInt 0 /\
    reply_count c = JInt 0 /\
    published_at c = JStr (py "2024-01-01T00:00:00Z") /\
    forall vid' mr', get_youtube_comments w vid' mr' tr = (Return [c], tr).
Proof.
  intros K. exists mock_comment.
  split; [apply get_youtube_comments_unconfigured, K|].
  repeat (split; [reflexivity|]).
  intros vid' mr'. apply get_youtube_comments_unconfigured, K.
Qed.

(** C3: the count asked of the comment-listing call is
    [min(max_results, 100)]: a fetch makes no call, or one call with that
    count for the given video (and it makes the call once a credential is
    set and the client is built); 250 and 100 give the same fetch. *)
Theorem get_youtube_comments_cap (vid : str) (mr : Z) (tr : trace) :
  (snd (get_youtube_comments w vid mr tr) = tr \/
   exists rq, snd (get_youtube_comments w vid mr tr) = tr ++ [rq] /\
              maxResults rq = Z.min mr 100 /\ videoId rq = vid) /\
  (YOUTUBE_API_KEY w <> [] ->
   forall u, build w (YOUTUBE_API_KEY w) = Return u ->
   exists rq, snd (get_youtube_comments w vid mr tr) = tr ++ [rq] /\
              maxResults rq = Z.min mr 100 /\ videoId rq = vid) /\
  get_youtube_comments w vid 250 tr = get_youtube_comments w vid 100 tr.
Proof.
  split; [|split].
  - destruct (get_youtube_comments_trace vid mr tr) as [H|H]; [left; exact H|].
    right. exists (the_request w vid mr). split; [exact H|split; reflexivity].
  - intros K u B. exists (the_request w vid mr).
    split; [|split; reflexivity].
    rewrite get_youtube_comments_configured by exact K. rewrite B.
    destruct (execute w (the_request w vid mr)); [reflexivity|].
    destruct (rbind _ _); reflexivity.
  - unfold get_youtube_comments, fetch_comments.
    change (the_request w vid 250) with (the_request w vid 100). reflexivity.
Qed.

(** C4: with a credential, whatever is raised while the client is built,
    the call made, or the items mapped (an item that cannot be mapped after
    any number that could) fails the fetch with status 500 and the detail
    "Error fetching comments: " followed by the text of the exception; a
    fetch that returns has mapped every item of the response; at most one
    call goes out. *)
Theorem get_youtube_comments_all_or_nothing (vid : str) (mr : Z) (tr : trace) :
  YOUTUBE_API_KEY w <> [] ->
  (forall e, build w (YOUTUBE_API_KEY w) = Raise e ->
     get_youtube_comments w vid mr tr = (Raise (fetch_error e), tr)) /\
  (forall u e, build w (YOUTUBE_API_KEY w) = Return u ->
     execute w (the_request w vid mr) = Raise e ->
     get_youtube_comments w vid mr tr =
       (Raise (fetch_error e), tr ++ [the_request w vid mr])) /\
  (forall u response e, build w (YOUTUBE_API_KEY w) = Return u ->
     execute w (the_request w vid mr) = Return response ->
     items_of w response = Raise e ->
     get_youtube_comments w vid mr tr =
       (Raise (fetch_error e), tr ++ [the_request w vid mr])) /\
  (forall u response good bad more e, build w (YOUTUBE_API_KEY w) = Return u ->
     execute w (the_request w vid mr) = Return response ->
     items_of w response = Return (good ++ bad :: more) ->
     Forall (fun item => exists c, comment_of_item w item = Return c) good ->
     comment_of_item w bad = Raise e ->
     get_youtube_comments w vid mr tr =
       (Raise (fetch_error e), tr ++ [the_request w vid mr])) /\
  (forall cs tr', get_youtube_comments w vid mr tr = (Return cs, tr') ->
     exists response items,
       execute w (the_request w vid mr) = Return response /\
       items_of w response = Return items /\
       Forall2 (fun item c => comment_of_item w item = Return c) items cs /\
       tr' = tr ++ [the_request w vid mr]) /\
  (forall h tr', get_youtube_comments w vid mr tr = (Raise h, tr') ->
     status_code h = 500%Z /\
     exists e, detail h = py "Error fetching comments: " ++ exn_text e) /\
  (exists calls, snd (get_youtube_comments w vid mr tr) = tr ++ calls /\
                 List.length calls <= 1).
Proof.
  intros K. rewrite get_youtube_comments_configured by exact K.
  repeat split.
  - intros e B. rewrite B. reflexivity.
  - intros u e B X. rewrite B, X. reflexivity.
  - intros u response e B X I. rewrite B, X, I. reflexivity.
  - intros u response good bad more e B X I G C. rewrite B, X, I. cbn [rbind].
    rewrite (@collect_raise good bad more e G C). reflexivity.
  - intros cs tr'. destruct (build w (YOUTUBE_API_KEY w)) as [e|u]; [discriminate|].
    destruct (execute w (the_request w vid mr)) as [e|response]; [discriminate|].
    destruct (items_of w response) as [e|items] eqn:I; [discriminate|]. cbn [rbind].
    destruct (collect w items []) as [e|cs0] eqn:C; [discriminate|].
    intros H. exists response, items.
    destruct (collect_return _ _ C) as (cs' & -> & F). cbn [app] in H.
    injection H as <- <-. repeat split; [exact I|exact F].
  - rewrite <- (get_youtube_comments_configured vid mr tr K) in H.
    destruct (get_youtube_comments_raise _ _ _ H) as (e & ->). reflexivity.
  - rewrite <- (get_youtube_comments_configured vid mr tr K) in H.
    destruct (get_youtube_comments_raise _ _ _ H) as (e & ->). exists e. reflexivity.
  - rewrite <- (get_youtube_comments_configured vid mr tr K).
    destruct (get_youtube_comments_trace vid mr tr) as [T|T]; rewrite T.
    + exists []. split; [rewrite app_nil_r; reflexivity|cbn; lia].
    + exists [the_request w vid mr]. split; [reflexivity|cbn; lia].
Qed.

End Fetcher.

(* ================================================================== *)
(** ** The routes *)

Section Routes.

Variable w : env.

Lemma respond_status (vid : str) (mr : Z) (tr : trace) :
  status (fst (respond w vid mr tr)) = 200%Z \/ status (fst (respond w vid mr tr)) = 500%Z.
Proof.
  unfold respond, bind.
  destruct (get_youtube_comments w vid mr tr) as [[h|cs] tr'] eqn:E.
  - right. destruct (get_youtube_comments_raise _ _ _ _ E) as (e & ->). reflexivity.
  - left. reflexivity.
Qed.

Lemma respond_return (vid : str) (mr : Z) (tr tr' : trace) (b : body) :
  respond w vid mr tr = (Return b, tr') <->
  exists cs, get_youtube_comments w vid mr tr = (Return cs, tr') /\
             b = Body vid (len cs) cs.
Proof.
  unfold respond, bind, ret.
  destruct (get_youtube_comments w vid mr tr) as [[h|cs] tr0]; split.
  - discriminate.
  - intros (cs & H & _). discriminate.
  - intros H. exists cs. split; congruence.
  - intros (cs0 & H & ->). congruence.
Qed.

Lemma get_comments_resolved (url vid : str) (mr : Z) :
  extract_video_id url = Some vid -> get_comments w url mr = respond w vid mr.
Proof.
  intros E. unfold get_comments. rewrite E.
  destruct (extract_video_id_token _ E) as [L _].
  destruct vid; [discriminate L|reflexivity].
Qed.

Lemma get_comments_unresolved (url : str) (mr : Z) (tr : trace) :
  extract_video_id url = None -> status (fst (get_comments w url mr tr)) = 400%Z.
Proof. intros E. unfold get_comments. rewrite E. reflexivity. Qed.

Lemma get_comments_by_id_checked (vid : str) (mr : Z) :
  List.length vid = 11 -> get_comments_by_id w vid mr = respond w vid mr.
Proof. intros L. unfold get_comments_by_id. rewrite L. reflexivity. Qed.

Lemma get_comments_by_id_rejected (vid : str) (mr : Z) (tr : trace) :
  List.length vid <> 11 -> status (fst (get_comments_by_id w vid mr tr)) = 400%Z.
Proof.
  intros L. unfold get_comments_by_id.
  destruct (Nat.eqb_spec (List.length vid) 11); [contradiction|reflexivity].
Qed.

(** C8: [GET /comments] answers 400 exactly when the url does not resolve;
    when it resolves and the fetch returns a list, the body holds the
    resolved id, that list, and its length; a returned body is always of
    this shape.  With no credential,
    [https://www.youtube.com/watch?v=dQw4w9WgXcQ] gives 200, the id
    [dQw4w9WgXcQ] and a count of 1. *)
Theorem get_comments_spec (url : str) (mr : Z) (tr : trace) :
  (status (fst (get_comments w url mr tr)) = 400%Z <-> extract_video_id url = None) /\
  (forall vid cs tr',
     extract_video_id url = Some vid ->
     get_youtube_comments w vid mr tr = (Return cs, tr') ->
     get_comments w url mr tr = (Return (Body vid (len cs) cs), tr')) /\
  (forall vid h tr',
     extract_video_id url = Some vid ->
     get_youtube_comments w vid mr tr = (Raise h, tr') ->
     get_comments w url mr tr = (Raise h, tr')) /\
  (forall b tr',
     get_comments w url mr tr = (Return b, tr') ->
     extract_video_id url = Some (video_id b) /\
     get_youtube_comments w (video_id b) mr tr = (Return (comments b), tr') /\
     comment_count b = len (comments b)) /\
  (YOUTUBE_API_KEY w = [] ->
   exists c,
     get_comments w (py "https://www.youtube.com/watch?v=dQw4w9WgXcQ") mr tr =
       (Return (Body (py "dQw4w9WgXcQ") 1 [c]), tr) /\
     status (fst (get_comments w (py "https://www.youtube.com/watch?v=dQw4w9WgXcQ") mr tr))
       = 200%Z).
Proof.
  split; [|split; [|split; [|split]]].
  - split.
    + destruct (extract_video_id url) as [vid|] eqn:E; [|reflexivity].
      rewrite (get_comments_resolved _ mr E).
      destruct (respond_status vid mr tr) as [S|S]; rewrite S; discriminate.
    + apply get_comments_unresolved.
  - intros vid cs tr' E F. rewrite (get_comments_resolved _ mr E).
    apply respond_return. exists cs. auto.
  - intros vid h tr' E F. rewrite (get_comments_resolved _ mr E).
    unfold respond, bind. rewrite F. reflexivity.
  - intros b tr'. destruct (extract_video_id url) as [vid|] eqn:E.
    + rewrite (get_comments_resolved _ mr E). intros H.
      apply respond_return in H. destruct H as (cs & F & ->). cbn [video_id comments comment_count].
      auto.
    + unfold get_comments. rewrite E. discriminate.
  - intros K. exists mock_comment.
    assert (E : extract_video_id (py "https://www.youtube.com/watch?v=dQw4w9WgXcQ")
                = Some (py "dQw4w9WgXcQ")) by (vm_compute; reflexivity).
    rewrite (get_comments_resolved _ mr E).
    unfold respond, bind. rewrite get_youtube_comments_unconfigured by exact K.
    split; reflexivity.
Qed.

(** C9: [GET /video/{video_id}/comments] answers 400 exactly when the id is
    not 11 characters long ("short" has 5); for an id of 11 characters and a
    fetch that returns a list, the body holds the id, that list, and its
    length; a returned body is always of this shape. *)
Theorem get_comments_by_id_spec (vid : str) (mr : Z) (tr : trace) :
  (status (fst (get_comments_by_id w vid mr tr)) = 400%Z <-> List.length vid <> 11) /\
  (forall cs tr',
     List.length vid = 11 ->
     get_youtube_comments w vid mr tr = (Return cs, tr') ->
     get_comments_by_id w vid mr tr = (Return (Body vid (len cs) cs), tr')) /\
  (forall h tr',
     List.length vid = 11 ->
     get_youtube_comments w vid mr tr = (Raise h, tr') ->
     get_comments_by_id w vid mr tr = (Raise h, tr')) /\
  (forall b tr',
     get_comments_by_id w vid mr tr = (Return b, tr') ->
     video_id b = vid /\
     get_youtube_comments w vid mr tr = (Return (comments b), tr') /\
     comment_count b = len (comments b)) /\
  (List.length (py "short") = 5 /\
   status (fst (get_comments_by_id w (py "short") mr tr)) = 400%Z).
Proof.
  split; [|split; [|split; [|split]]].
  - split.
    + intros S L. rewrite (@get_comments_by_id_checked vid mr L) in S.
      destruct (respond_status vid mr tr) as [S'|S']; rewrite S' in S; discriminate.
    + apply get_comments_by_id_rejected.
  - intros cs tr' L F. rewrite (@get_comments_by_id_checked vid mr L).
    apply respond_return. exists cs. auto.
  - intros h tr' L F. rewrite (@get_comments_by_id_checked vid mr L).
    unfold respond, bind. rewrite F. reflexivity.
  - intros b tr'. destruct (Nat.eq_dec (List.length vid) 11) as [L|L].
    + rewrite (@get_comments_by_id_checked vid mr L). intros H.
      apply respond_return in H. destruct H as (cs & F & ->). cbn [video_id comments comment_count].
      auto.
    + pose proof (@get_comments_by_id_rejected vid mr tr L) as S. intros H.
      rewrite H in S. discriminate.
  - split; reflexivity.
Qed.

(** C10: the check of [GET /video/{video_id}/comments] looks at the length
    only: any 11 characters pass it, whatever they are, and the fetcher is
    given the very same string; when a call goes out, its [videoId] is that
    string. *)
Theorem get_comments_by_id_length_only (vid : str) (mr : Z) (tr : trace) :
  List.length vid = 11 ->
  status (fst (get_comments_by_id w vid mr tr)) <> 400%Z /\
  get_comments_by_id w vid mr tr =
    bind (get_youtube_comments w vid mr)
         (fun cs => ret (Body vid (len cs) cs)) tr /\
  (YOUTUBE_API_KEY w <> [] ->
   forall u, build w (YOUTUBE_API_KEY w) = Return u ->
   exists rq, snd (get_comments_by_id w vid mr tr) = tr ++ [rq] /\ videoId rq = vid).
Proof.
  intros L. rewrite (@get_comments_by_id_checked vid mr L). split; [|split].
  - destruct (respond_status vid mr tr) as [S|S]; rewrite S; discriminate.
  - reflexivity.
  - intros K u B. exists (the_request w vid mr). split; [|reflexivity].
    unfold respond, bind. rewrite get_youtube_comments_configured by exact K.
    rewrite B. destruct (execute w (the_request w vid mr)); [reflexivity|].
    destruct (rbind _ _); reflexivity.
Qed.

End Routes.

(* ================================================================== *)
(** ** The statements at sample inputs *)

Lemma get_youtube_comments_no_credential_witness :
  YOUTUBE_API_KEY (client [] (Return broken_response)) = [] /\
  exists c,
    get_youtube_comments (client [] (Return broken_response)) (py "dQw4w9WgXcQ") 50 []
      = (Return [c], []) /\
    author c = JStr (py "Demo User") /\
    likes c = JInt 0 /\
    reply_count c = JInt 0 /\
    published_at c = JStr (py "2024-01-01T00:00:00Z") /\
    forall vid' mr',
      get_youtube_comments (client [] (Return broken_response)) vid' mr' []
        = (Return [c], []).
Proof.
  split; [reflexivity|].
  apply get_youtube_comments_no_credential. reflexivity.
Defined.

(** One good item, then one that cannot be mapped: no record is returned. *)
Lemma get_youtube_comments_all_or_nothing_witness :
  YOUTUBE_API_KEY (client (py "key") (Return broken_response)) <> [] /\
  get_youtube_comments (client (py "key") (Return broken_response)) (py "dQw4w9WgXcQ") 50 []
    = (Raise (HTTPError 500 (py "Error fetching comments: 'snippet'")),
       [the_request (client (py "key") (Return broken_response)) (py "dQw4w9WgXcQ") 50]).
Proof.
  split; [discriminate|].
  destruct (@get_youtube_comments_all_or_nothing
              (client (py "key") (Return broken_response)) (py "dQw4w9WgXcQ") 50 [])
    as (_ & _ & _ & H & _); [discriminate|].
  apply (H tt broken_response
           [thread "Ann" "First" "2024-05-01T10:00:00Z" 3 1] (JDict []) []
           (KeyError (py "snippet"))); try reflexivity.
  constructor; [|constructor]. eexists. reflexivity.
Defined.

(** Eleven exclamation marks pass the check and reach the API as they are. *)
Lemma get_comments_by_id_length_only_witness :
  List.length (py "!!!!!!!!!!!") = 11 /\
  forallb idchar (py "!!!!!!!!!!!") = false /\
  status (fst (get_comments_by_id (client (py "key") (Return broken_response))
                 (py "!!!!!!!!!!!") 50 [])) <> 400%Z /\
  exists rq,
    snd (get_comments_by_id (client (py "key") (Return broken_response))
           (py "!!!!!!!!!!!") 50 []) = [rq] /\
    videoId rq = py "!!!!!!!!!!!".
Proof.
  split; [reflexivity|]. split; [reflexivity|].
  destruct (@get_comments_by_id_length_only
              (client (py "key") (Return broken_response)) (py "!!!!!!!!!!!") 50 [] eq_refl)
    as (S & _ & H).
  split; [exact S|].
  apply (H ltac:(discriminate) tt eq_refl).
Defined.

(** C7: a video id followed by one line feed is 12 characters long and has
    no [/] and no [v=], and yet it resolves, to the id without the line
    feed: [$] in rule 4 also matches before a final newline. *)
Theorem extract_video_id_trailing_newline :
  List.length id_and_newline = 12 /\
  ~ qualifying_separator id_and_newline /\
  extract_video_id id_and_newline = Some (py "dQw4w9WgXcQ").
Proof.
  split; [reflexivity|]. split; [|reflexivity].
  intros Q. apply leftmost_sep_token_iff in Q. apply Q. reflexivity.
Qed.

(** The two routes disagree on it: [/comments] accepts what
    [/video/{video_id}/comments] rejects. *)
Lemma id_and_newline_routes (w : env) (mr : Z) (tr : trace) :
  status (fst (get_comments w id_and_newline mr tr)) <> 400%Z /\
  status (fst (get_comments_by_id w id_and_newline mr tr)) = 400%Z.
Proof.
  split; [|reflexivity].
  rewrite (@get_comments_resolved w id_and_newline (py "dQw4w9WgXcQ") mr eq_refl).
  destruct (respond_status w (py "dQw4w9WgXcQ") mr tr) as [S|S]; rewrite S; discriminate.
Qed.

(* ================================================================== *)
(** * Further properties of the resolver *)

Section ResolverMore.
Import Re.

Lemma leftmost_first (f : str -> option str) (t x : str) :
  leftmost f t = Some x ->
  exists pre t',
    t = pre ++ t' /\ f t' = Some x /\
    forall pre2 t2, t = pre2 ++ t2 -> List.length pre2 < List.length pre -> f t2 = None.
Proof.
  induction t as [|c t IH]; cbn [leftmost].
  - destruct (f []) eqn:E; [|discriminate]. intros H. exists [], [].
    split; [reflexivity|]. split; [congruence|]. intros pre2 t2 _ L. cbn in L. lia.
  - destruct (f (c :: t)) eqn:E.
    + intros H. exists [], (c :: t).
      split; [reflexivity|]. split; [congruence|]. intros pre2 t2 _ L. cbn in L. lia.
    + intros H. destruct (IH H) as (pre & t' & -> & F & M).
      exists (c :: pre), t'. split; [reflexivity|]. split; [exact F|].
      intros [|d pre2] t2 E2 L.
      * cbn [app] in E2. subst t2. exact E.
      * cbn [app] in E2. injection E2 as <- E2. apply (M pre2 t2 E2).
        cbn [List.length] in L. lia.
Qed.

Lemma bare_id_iff (s : str) :
  bare_id s <> None <-> is_token s \/ exists x, is_token x /\ s = x ++ [NL].
Proof.
  split.
  - destruct (bare_id s) as [x|] eqn:B; [intros _|congruence].
    apply bare_id_some in B. destruct B as [T [-> | ->]]; [left; exact T|].
    right. exists x. auto.
  - intros [T | (x & T & ->)].
    + rewrite bare_id_token by exact T. discriminate.
    + unfold bare_id. rewrite take_token_app by exact T.
      destruct T as [L _]. rewrite skipn_app, L, Nat.sub_diag, skipn_all2 by lia.
      cbn [app skipn]. rewrite N.eqb_refl. discriminate.
Qed.

(** X1: what [extract_video_id] returns is 11 characters of the class, and
    these characters stand in the input, next to each other. *)
Theorem extract_video_id_sound (url x : str) :
  extract_video_id url = Some x ->
  is_token x /\ exists pre post, url = pre ++ x ++ post.
Proof.
  intros H. split; [exact (extract_video_id_token _ H)|].
  rewrite extract_video_id_two_rules in H.
  destruct (leftmost sep_token url) as [y|] eqn:E.
  - assert (y = x) by congruence. subst y.
    destruct (leftmost_some _ _ E) as (pre & t' & -> & F).
    destruct (sep_token_some _ F) as (sep & post & -> & _ & _).
    exists (pre ++ sep), post. rewrite <- app_assoc. reflexivity.
  - apply bare_id_some in H. destruct H as [_ [-> | ->]].
    + exists [], []. rewrite app_nil_r. reflexivity.
    + exists [], [NL]. reflexivity.
Qed.

Lemma extract_video_id_sound_witness :
  extract_video_id (py "https://youtu.be/dQw4w9WgXcQ?t=42") = Some (py "dQw4w9WgXcQ") /\
  is_token (py "dQw4w9WgXcQ") /\
  exists pre post, py "https://youtu.be/dQw4w9WgXcQ?t=42" = pre ++ py "dQw4w9WgXcQ" ++ post.
Proof.
  split; [reflexivity|].
  apply (@extract_video_id_sound (py "https://youtu.be/dQw4w9WgXcQ?t=42")). reflexivity.
Defined.

(** X2: the second and the third pattern never decide the result: the loop
    over the first and the last pattern alone returns the same. *)
Theorem extract_video_id_without_rules_2_3 (url : str) :
  first_match [pattern1; pattern4] url = extract_video_id url.
Proof.
  rewrite extract_video_id_two_rules. cbn [first_match].
  rewrite (@loop_step pattern4 (bare_id url) None url (search_pattern4 url)).
  rewrite (@loop_step pattern1 (leftmost sep_token url) _ url
             (search_at_leftmost _ _ pattern1_at url 0)).
  destruct (leftmost sep_token url); [reflexivity|].
  destruct (bare_id url); reflexivity.
Qed.

(** X3: an input resolves exactly when it has a [/] or a [v=] that an
    11-character token follows, or is such a token, or is such a token and
    one final line feed. *)
Theorem extract_video_id_resolves_iff (url : str) :
  extract_video_id url <> None <->
  qualifying_separator url \/ is_token url \/
  exists x, is_token x /\ url = x ++ [NL].
Proof.
  rewrite extract_video_id_two_rules, <- leftmost_sep_token_iff, <- bare_id_iff.
  destruct (leftmost sep_token url); split.
  - intros _. left. discriminate.
  - intros _. discriminate.
  - intros H. right. exact H.
  - intros [H | H]; [congruence|exact H].
Qed.

(** X4: resolving is idempotent: the id an input resolves to resolves to
    itself. *)
Theorem extract_video_id_idempotent (url x : str) :
  extract_video_id url = Some x -> extract_video_id x = Some x.
Proof.
  intros H. apply extract_video_id_token in H.
  rewrite extract_video_id_two_rules, idchars_no_separator by apply H.
  apply bare_id_token, H.
Qed.

Lemma extract_video_id_idempotent_witness :
  extract_video_id (py "https://www.youtube.com/embed/dQw4w9WgXcQ")
    = Some (py "dQw4w9WgXcQ") /\
  extract_video_id (py "dQw4w9WgXcQ") = Some (py "dQw4w9WgXcQ").
Proof.
  split; [reflexivity|].
  apply (@extract_video_id_idempotent (py "https://www.youtube.com/embed/dQw4w9WgXcQ")).
  reflexivity.
Defined.

(** X5: with a qualifying separator in the input, the result is the token
    after the first of them, counted from the left. *)
Theorem extract_video_id_leftmost (url : str) :
  qualifying_separator url ->
  exists pre sep x post,
    extract_video_id url = Some x /\
    url = pre ++ sep ++ x ++ post /\ (sep = py "v=" \/ sep = py "/") /\ is_token x /\
    forall pre' sep' x' post',
      url = pre' ++ sep' ++ x' ++ post' -> (sep' = py "v=" \/ sep' = py "/") ->
      is_token x' -> List.length pre <= List.length pre'.
Proof.
  intros Q. apply leftmost_sep_token_iff in Q.
  destruct (leftmost sep_token url) as [x|] eqn:E; [clear Q|congruence].
  destruct (leftmost_first _ _ E) as (pre & t' & U & F & M).
  destruct (sep_token_some _ F) as (sep & post & -> & S & T).
  exists pre, sep, x, post.
  split; [rewrite extract_video_id_two_rules, E; reflexivity|].
  split; [exact U|]. split; [exact S|]. split; [exact T|].
  intros pre' sep' x' post' U' S' T'.
  destruct (Nat.le_gt_cases (List.length pre) (List.length pre')) as [L|L]; [exact L|].
  pose proof (M pre' _ U' L) as N.
  rewrite (sep_token_at_separator post' S' T') in N. discriminate.
Qed.

Lemma extract_video_id_leftmost_witness :
  qualifying_separator (py "/AAAAAAAAAAA/embed/BBBBBBBBBBB") /\
  exists pre sep x post,
    extract_video_id (py "/AAAAAAAAAAA/embed/BBBBBBBBBBB") = Some x /\
    py "/AAAAAAAAAAA/embed/BBBBBBBBBBB" = pre ++ sep ++ x ++ post /\
    (sep = py "v=" \/ sep = py "/") /\ is_token x /\
    forall pre' sep' x' post',
      py "/AAAAAAAAAAA/embed/BBBBBBBBBBB" = pre' ++ sep' ++ x' ++ post' ->
      (sep' = py "v=" \/ sep' = py "/") ->
      is_token x' -> List.length pre <= List.length pre'.
Proof.
  assert (Q : qualifying_separator (py "/AAAAAAAAAAA/embed/BBBBBBBBBBB")).
  { exists [], (py "/"), (py "AAAAAAAAAAA"), (py "/embed/BBBBBBBBBBB").
    split; [reflexivity|]. split; [right; reflexivity|split; reflexivity]. }
  split; [exact Q|].
  exact (@extract_video_id_leftmost (py "/AAAAAAAAAAA/embed/BBBBBBBBBBB") Q).
Defined.

Lemma take_token_app_long (u post : str) :
  11 <= List.length u -> take_token (u ++ post) = take_token u.
Proof.
  intros L. unfold take_token.
  rewrite firstn_app. replace (11 - List.length u) with 0 by lia.
  cbn [firstn]. rewrite app_nil_r, length_app.
  rewrite (proj2 (Nat.leb_le 11 (List.length u)) L).
  rewrite (proj2 (Nat.leb_le 11 (List.length u + List.length post))) by lia.
  reflexivity.
Qed.

Lemma prefix_app_long (l : str) :
  forall t post, List.length l <= List.length t -> prefix l (t ++ post) = prefix l t.
Proof.
  induction l as [|c l IH]; intros [|d t] post L; cbn [prefix app]; try reflexivity.
  - cbn in L. lia.
  - rewrite IH by (cbn in L; lia). reflexivity.
Qed.

Lemma after_app_long (l t post : str) :
  List.length l + 11 <= List.length t -> after l (t ++ post) = after l t.
Proof.
  intros L. unfold after. rewrite prefix_app_long by lia.
  destruct (prefix l t); [|reflexivity].
  rewrite skipn_app. replace (List.length l - List.length t) with 0 by lia.
  cbn [skipn]. apply take_token_app_long. rewrite length_skipn. lia.
Qed.

Lemma sep_token_app_long (t post : str) :
  13 <= List.length t -> sep_token (t ++ post) = sep_token t.
Proof.
  intros L. unfold sep_token.
  rewrite !after_app_long by (cbn; lia). reflexivity.
Qed.

Lemma sep_token_app_some (t post x : str) :
  sep_token t = Some x -> sep_token (t ++ post) = Some x.
Proof.
  intros H. destruct (sep_token_some _ H) as (sep & post0 & -> & S & T).
  rewrite <- !app_assoc. apply sep_token_at_separator; assumption.
Qed.

Lemma leftmost_sep_token_length (t x : str) :
  leftmost sep_token t = Some x -> 12 <= List.length t.
Proof.
  intros H. destruct (leftmost_some _ _ H) as (pre & t' & -> & F).
  destruct (sep_token_some _ F) as (sep & post & -> & S & [L _]).
  rewrite !length_app, L. destruct S as [-> | ->]; cbn; lia.
Qed.

Lemma leftmost_sep_token_app (post : str) (t : str) :
  forall x, leftmost sep_token t = Some x -> leftmost sep_token (t ++ post) = Some x.
Proof.
  induction t as [|c t IH]; intros x H.
  - apply leftmost_sep_token_length in H. cbn in H. lia.
  - cbn [leftmost] in H. destruct (sep_token (c :: t)) as [y|] eqn:E.
    + apply leftmost_here. assert (y = x) by congruence. subst y.
      apply sep_token_app_some, E.
    + pose proof (leftmost_sep_token_length _ H) as L.
      cbn [app]. rewrite leftmost_skip.
      * apply IH, H.
      * change (c :: t ++ post) with ((c :: t) ++ post).
        rewrite sep_token_app_long by (cbn; lia). exact E.
Qed.

(** X6: once an input has a qualifying separator, nothing appended to it
    changes the result. *)
Theorem extract_video_id_append (url post : str) :
  qualifying_separator url ->
  extract_video_id (url ++ post) = extract_video_id url.
Proof.
  intros Q. apply leftmost_sep_token_iff in Q.
  rewrite !extract_video_id_two_rules.
  destruct (leftmost sep_token url) as [x|] eqn:E; [|congruence].
  rewrite (leftmost_sep_token_app post _ E). reflexivity.
Qed.

Lemma extract_video_id_append_witness :
  qualifying_separator (py "https://youtu.be/dQw4w9WgXcQ") /\
  extract_video_id (py "https://youtu.be/dQw4w9WgXcQ" ++ py "&list=PLx/AAAAAAAAAAA")
    = extract_video_id (py "https://youtu.be/dQw4w9WgXcQ").
Proof.
  assert (Q : qualifying_separator (py "https://youtu.be/dQw4w9WgXcQ")).
  { exists (py "https://youtu.be"), (py "/"), (py "dQw4w9WgXcQ"), [].
    split; [reflexivity|]. split; [right; reflexivity|split; reflexivity]. }
  split; [exact Q|].
  exact (@extract_video_id_append _ (py "&list=PLx/AAAAAAAAAAA") Q).
Defined.

(** X7: an input made of class characters only resolves exactly when it is
    11 characters long, and then to itself: 10 or 12 such characters do not
    resolve. *)
Theorem extract_video_id_class_only (s : str) :
  forallb idchar s = true ->
  extract_video_id s = if Nat.eqb (List.length s) 11 then Some s else None.
Proof.
  intros F. rewrite extract_video_id_two_rules, idchars_no_separator by exact F.
  destruct (Nat.eqb_spec (List.length s) 11) as [L|L].
  - apply bare_id_token. split; assumption.
  - destruct (bare_id s) as [x|] eqn:B; [exfalso|reflexivity].
    apply bare_id_some in B. destruct B as [[Lx _] [-> | ->]]; [contradiction|].
    rewrite forallb_app in F. apply andb_true_iff in F. destruct F as [_ F].
    vm_compute in F. discriminate F.
Qed.

Lemma extract_video_id_class_only_witness :
  forallb idchar (py "dQw4w9WgXcQx") = true /\
  extract_video_id (py "dQw4w9WgXcQx") = None.
Proof.
  split; [reflexivity|].
  exact (@extract_video_id_class_only (py "dQw4w9WgXcQx") eq_refl).
Defined.

Lemma sep_token_plain (c : char) (t : str) :
  plain c = true ->
  match t with [] => True | d :: _ => N.eqb d 61 = false end ->
  sep_token (c :: t) = None.
Proof.
  unfold plain. intros P D. apply andb_true_iff in P. destruct P as [P1 P2].
  apply negb_true_iff in P1.
  unfold sep_token, after. change (py "v=") with [118%N; 61%N]. change (py "/") with [47%N].
  assert (A : prefix [118%N; 61%N] (c :: t) = false).
  { cbn [prefix]. destruct t as [|d t]; [apply andb_false_r|].
    rewrite N.eqb_sym in D. rewrite D. apply andb_false_r. }
  assert (B : prefix [47%N] (c :: t) = false).
  { cbn [prefix]. rewrite N.eqb_sym, P1. reflexivity. }
  rewrite ?A, ?B. reflexivity.
Qed.

(** X8: the host is not looked at, and nothing has to end the token: after
    any text without [/] and [=], a [/] and 11 class characters resolve to
    these characters, whatever follows them. *)
Theorem extract_video_id_any_host (pre x post : str) :
  forallb plain pre = true ->
  is_token x ->
  extract_video_id (pre ++ py "/" ++ x ++ post) = Some x.
Proof.
  intros P T. rewrite extract_video_id_two_rules.
  assert (H : leftmost sep_token (pre ++ py "/" ++ x ++ post) = Some x).
  { induction pre as [|c pre IH].
    - apply leftmost_here.
      apply (@sep_token_at_separator (py "/") x post); [right; reflexivity|exact T].
    - cbn [forallb] in P. apply andb_true_iff in P. destruct P as [Pc P].
      cbn [app]. rewrite leftmost_skip; [exact (IH P)|].
      apply sep_token_plain; [exact Pc|].
      destruct pre as [|d pre]; [reflexivity|].
      cbn [forallb] in P. apply andb_true_iff in P. destruct P as [Pd _].
      unfold plain in Pd. apply andb_true_iff in Pd. destruct Pd as [_ Pd].
      apply negb_true_iff in Pd. exact Pd. }
  rewrite H. reflexivity.
Qed.

Lemma extract_video_id_any_host_witness :
  forallb plain (py "vimeo.example") = true /\
  is_token (py "AAAAAAAAAAA") /\
  extract_video_id (py "vimeo.example" ++ py "/" ++ py "AAAAAAAAAAA" ++ py "AAAA")
    = Some (py "AAAAAAAAAAA").
Proof.
  split; [reflexivity|]. split; [split; reflexivity|].
  apply extract_video_id_any_host; [reflexivity|split; reflexivity].
Defined.

End ResolverMore.

(* ================================================================== *)
(** * Further properties of the fetcher *)

Section FetcherMore.

Variable w : env.

Lemma get_youtube_comments_response (vid : str) (mr : Z) (tr : trace) (u : unit)
    (response : json) :
  YOUTUBE_API_KEY w <> [] ->
  build w (YOUTUBE_API_KEY w) = Return u ->
  execute w (the_request w vid mr) = Return response ->
  get_youtube_comments w vid mr tr =
  match rbind (items_of w response) (fun items => collect w items []) with
  | Raise e => (Raise (fetch_error e), tr ++ [the_request w vid mr])
  | Return cs => (Return cs, tr ++ [the_request w vid mr])
  end.
Proof.
  intros K B X. rewrite get_youtube_comments_configured by exact K.
  rewrite B, X. reflexivity.
Qed.

(** X9: a response without [items], or with an empty list, dict or string
    for it, is no error: the fetch returns no record, after its one call. *)
Theorem get_youtube_comments_no_items (vid : str) (mr : Z) (tr : trace) (u : unit)
    (d : list (str * json)) :
  YOUTUBE_API_KEY w <> [] ->
  build w (YOUTUBE_API_KEY w) = Return u ->
  execute w (the_request w vid mr) = Return (JDict d) ->
  (lookup (py "items") d = None \/
   exists v, lookup (py "items") d = Some v /\ empty v) ->
  get_youtube_comments w vid mr tr = (Return [], tr ++ [the_request w vid mr]).
Proof.
  intros K B X E. rewrite (get_youtube_comments_response vid mr tr K B X).
  unfold items_of, get_items.
  destruct E as [-> | (v & -> & [-> | [-> | ->]])]; reflexivity.
Qed.

(** X10: the default of [response.get('items', [])] stands in for a
    missing key only: [items] present as [None], a [bool] or an [int] fails
    the fetch with the interpreter's error for a value that cannot be run
    through, and a response that is not a dict fails it at [.get]. *)
Theorem get_youtube_comments_bad_shape (vid : str) (mr : Z) (tr : trace) (u : unit)
    (response : json) :
  YOUTUBE_API_KEY w <> [] ->
  build w (YOUTUBE_API_KEY w) = Return u ->
  execute w (the_request w vid mr) = Return response ->
  (forall d v, response = JDict d -> lookup (py "items") d = Some v -> scalar v ->
     get_youtube_comments w vid mr tr =
       (Raise (fetch_error (iter_error w v)), tr ++ [the_request w vid mr])) /\
  ((forall d, response <> JDict d) ->
     get_youtube_comments w vid mr tr =
       (Raise (fetch_error (attribute_error w response)),
        tr ++ [the_request w vid mr])).
Proof.
  intros K B X. rewrite (get_youtube_comments_response vid mr tr K B X). split.
  - intros d v -> L S. unfold items_of, get_items. rewrite L. cbn [rbind].
    destruct v; try contradiction; reflexivity.
  - intros N. unfold items_of, get_items.
    destruct response; try reflexivity. exfalso. apply (N d). reflexivity.
Qed.

Ltac lookup_cases :=
  repeat match goal with
         | |- context [getitem w ?v ?k] =>
             unfold getitem at 1
         | |- context [match ?v with JDict _ => _ | _ => _ end] =>
             destruct v
         | |- context [match lookup ?k ?d with Some _ => _ | None => _ end] =>
             let E := fresh "E" in destruct (lookup k d) eqn:E
         | |- context [rbind (Return _) _] => cbn [rbind]
         | |- context [rbind (Raise _) _] => cbn [rbind]
         end.

(** X11: an item is mapped exactly when it is a dict with a dict under
    [snippet], in it a dict under [topLevelComment], in that a dict under
    [snippet]; the record then holds what that innermost dict has under
    [authorDisplayName], [textDisplay], [likeCount] and [publishedAt], as
    they are, and for [reply_count] what the item's own [snippet] has under
    [totalReplyCount]. *)
Theorem comment_of_item_return (item : json) (c : comment) :
  comment_of_item w item = Return c <->
  exists d s t k,
    item = JDict d /\
    lookup (py "snippet") d = Some (JDict s) /\
    lookup (py "topLevelComment") s = Some (JDict t) /\
    lookup (py "snippet") t = Some (JDict k) /\
    lookup (py "authorDisplayName") k = Some (author c) /\
    lookup (py "textDisplay") k = Some (text c) /\
    lookup (py "likeCount") k = Some (likes c) /\
    lookup (py "publishedAt") k = Some (published_at c) /\
    lookup (py "totalReplyCount") s = Some (reply_count c).
Proof.
  split.
  - unfold comment_of_item. lookup_cases; try discriminate.
    intros H. injection H as <-. cbn [author text likes published_at reply_count].
    repeat eexists; eassumption.
  - intros (d & s & t & k & -> & S & T & K & A & X & L & P & R).
    unfold comment_of_item, getitem.
    rewrite S. cbn [rbind]. rewrite T. cbn [rbind]. rewrite K. cbn [rbind].
    rewrite A. cbn [rbind]. rewrite X. cbn [rbind]. rewrite L. cbn [rbind].
    rewrite P. cbn [rbind]. rewrite R. cbn [rbind].
    destruct c; reflexivity.
Qed.

(** X12: an item that cannot be mapped fails with a [KeyError] for one of
    the seven keys read, or with the interpreter's error for subscripting a
    value that is not a dict; nothing else is raised. *)
Theorem comment_of_item_raise (item : json) (e : exn) :
  comment_of_item w item = Raise e ->
  (exists k, In k item_keys /\ e = KeyError k) \/
  (exists v, e = subscript_error w v).
Proof.
  unfold comment_of_item. lookup_cases; try discriminate;
    intros H; injection H as <-;
    first [ right; eexists; reflexivity
          | left; eexists; split; [|reflexivity]; cbn; tauto ].
Qed.

End FetcherMore.

Lemma get_youtube_comments_no_items_witness :
  get_youtube_comments (client (py "key") (Return (JDict [(py "kind", JStr (py "x"))])))
    (py "dQw4w9WgXcQ") 20 []
  = (Return [],
     [the_request (client (py "key") (Return (JDict [(py "kind", JStr (py "x"))])))
        (py "dQw4w9WgXcQ") 20]).
Proof.
  apply (@get_youtube_comments_no_items
           (client (py "key") (Return (JDict [(py "kind", JStr (py "x"))])))
           (py "dQw4w9WgXcQ") 20 [] tt [(py "kind", JStr (py "x"))]).
  - discriminate.
  - reflexivity.
  - reflexivity.
  - left. reflexivity.
Defined.

Lemma get_youtube_comments_bad_shape_witness :
  get_youtube_comments (client (py "key") (Return (JDict [(py "items", JNull)])))
    (py "dQw4w9WgXcQ") 20 []
  = (Raise (HTTPError 500 (py "Error fetching comments: not iterable")),
     [the_request (client (py "key") (Return (JDict [(py "items", JNull)])))
        (py "dQw4w9WgXcQ") 20]).
Proof.
  destruct (@get_youtube_comments_bad_shape
              (client (py "key") (Return (JDict [(py "items", JNull)])))
              (py "dQw4w9WgXcQ") 20 [] tt (JDict [(py "items", JNull)])
              ltac:(discriminate) eq_refl eq_refl)
    as [H _].
  apply (H [(py "items", JNull)] JNull); [reflexivity|reflexivity|exact I].
Defined.

Lemma comment_of_item_raise_witness :
  comment_of_item (client (py "key") (Return broken_response))
    (JDict [(py "snippet", JDict [(py "topLevelComment", JInt 3)])])
    = Raise (Exn (py "TypeError") (py "not subscriptable")) /\
  ((exists k, In k item_keys /\ Exn (py "TypeError") (py "not subscriptable") = KeyError k) \/
   (exists v, Exn (py "TypeError") (py "not subscriptable")
              = subscript_error (client (py "key") (Return broken_response)) v)).
Proof.
  split; [reflexivity|].
  apply (@comment_of_item_raise (client (py "key") (Return broken_response))
           (JDict [(py "snippet", JDict [(py "topLevelComment", JInt 3)])])).
  reflexivity.
Defined.


(* ================================================================== *)
(** * Further properties of the calls and of the routes *)

Section RoutesMore.

Variable w : env.

(** X13: a fetch only adds to the log, at most one call, and none without
    a credential; the call carries the credential, the video id as given,
    the fixed [part], [order] and [textFormat], and a count that is at most
    100 and is [max_results] itself up to 100: zero and negative counts
    are passed on. *)
Theorem get_youtube_comments_call (vid : str) (mr : Z) (tr : trace) :
  exists calls,
    snd (get_youtube_comments w vid mr tr) = tr ++ calls /\
    List.length calls <= 1 /\
    (YOUTUBE_API_KEY w = [] -> calls = []) /\
    Forall (fun rq =>
              developerKey rq = YOUTUBE_API_KEY w /\
              videoId rq = vid /\
              part rq = py "snippet" /\
              order rq = py "relevance" /\
              textFormat rq = py "plainText" /\
              (maxResults rq <= 100)%Z /\
              ((mr <= 100)%Z -> maxResults rq = mr)) calls.
Proof.
  destruct (YOUTUBE_API_KEY w) as [|k0 key] eqn:E.
  - exists []. rewrite get_youtube_comments_unconfigured by exact E.
    rewrite app_nil_r. repeat split; auto.
  - destruct (get_youtube_comments_trace w vid mr tr) as [T|T]; rewrite T.
    + exists []. rewrite app_nil_r. repeat split; auto.
    + exists [the_request w vid mr]. split; [reflexivity|]. split; [cbn; lia|].
      split; [discriminate|]. constructor; [|constructor].
      cbn [developerKey videoId part order textFormat maxResults the_request].
      repeat split; try exact E; intros; lia.
Qed.


(** X15: the two routes agree: what [/comments] answers for an input that
    resolves to an id is what [/video/{video_id}/comments] answers for that
    id. *)
Theorem routes_agree (url vid : str) (mr : Z) (tr : trace) :
  extract_video_id url = Some vid ->
  get_comments w url mr tr = get_comments_by_id w vid mr tr.
Proof.
  intros E. rewrite (@get_comments_resolved w url vid mr E).
  destruct (extract_video_id_token _ E) as [L _].
  rewrite (@get_comments_by_id_checked w vid mr L). reflexivity.
Qed.


(** X17: with no credential, [/comments] answers every input that resolves
    with 200, the resolved id and the one demo record, and
    [/video/{video_id}/comments] does so for every 11 characters; neither
    makes a call. *)
Theorem routes_no_credential (s : str) (mr : Z) (tr : trace) :
  YOUTUBE_API_KEY w = [] ->
  (forall vid, extract_video_id s = Some vid ->
     get_comments w s mr tr = (Return (Body vid 1 [mock_comment]), tr)) /\
  (List.length s = 11 ->
     get_comments_by_id w s mr tr = (Return (Body s 1 [mock_comment]), tr)).
Proof.
  intros K. split.
  - intros vid E. rewrite (@get_comments_resolved w s vid mr E).
    unfold respond, bind. rewrite get_youtube_comments_unconfigured by exact K.
    reflexivity.
  - intros L. rewrite (@get_comments_by_id_checked w s mr L).
    unfold respond, bind. rewrite get_youtube_comments_unconfigured by exact K.
    reflexivity.
Qed.

End RoutesMore.

Lemma routes_agree_witness :
  extract_video_id (py "https://youtu.be/dQw4w9WgXcQ") = Some (py "dQw4w9WgXcQ") /\
  get_comments (client (py "key") (Return broken_response))
    (py "https://youtu.be/dQw4w9WgXcQ") 20 []
  = get_comments_by_id (client (py "key") (Return broken_response))
      (py "dQw4w9WgXcQ") 20 [].
Proof.
  split; [reflexivity|].
  apply (@routes_agree (client (py "key") (Return broken_response))
           (py "https://youtu.be/dQw4w9WgXcQ") (py "dQw4w9WgXcQ") 20 [] eq_refl).
Defined.

Lemma routes_no_credential_witness :
  YOUTUBE_API_KEY (client [] (Return broken_response)) = [] /\
  get_comments (client [] (Return broken_response)) (py "/AAAAAAAAAAA") 20 []
    = (Return (Body (py "AAAAAAAAAAA") 1 [mock_comment]), []) /\
  get_comments_by_id (client [] (Return broken_response)) (py "!!!!!!!!!!!") 20 []
    = (Return (Body (py "!!!!!!!!!!!") 1 [mock_comment]), []).
Proof.
  split; [reflexivity|]. split.
  - destruct (@routes_no_credential (client [] (Return broken_response))
                (py "/AAAAAAAAAAA") 20 [] eq_refl) as [H _].
    apply (H (py "AAAAAAAAAAA") eq_refl).
  - destruct (@routes_no_credential (client [] (Return broken_response))
                (py "!!!!!!!!!!!") 20 [] eq_refl) as [_ H].
    apply (H eq_refl).
Defined.

Section RouteCalls.

Variable w : env.

Lemma respond_trace (vid : str) (mr : Z) (tr : trace) :
  snd (respond w vid mr tr) = snd (get_youtube_comments w vid mr tr).
Proof.
  unfold respond, bind.
  destruct (get_youtube_comments w vid mr tr) as [[h|cs] tr']; reflexivity.
Qed.

(** X18: [/comments] hands the API nothing but what it resolved: every call
    it makes has for [videoId] an 11-character token of the class, the one
    the input resolves to; a request answered with 400 makes no call, on
    either route. *)
Theorem routes_calls (s : str) (mr : Z) (tr : trace) :
  (exists calls,
     snd (get_comments w s mr tr) = tr ++ calls /\
     List.length calls <= 1 /\
     Forall (fun rq => is_token (videoId rq) /\
                       extract_video_id s = Some (videoId rq)) calls) /\
  (status (fst (get_comments w s mr tr)) = 400%Z ->
     snd (get_comments w s mr tr) = tr) /\
  (status (fst (get_comments_by_id w s mr tr)) = 400%Z ->
     snd (get_comments_by_id w s mr tr) = tr).
Proof.
  split; [|split].
  - destruct (extract_video_id s) as [vid|] eqn:E.
    + rewrite (@get_comments_resolved w s vid mr E), respond_trace.
      destruct (get_youtube_comments_trace w vid mr tr) as [T|T]; rewrite T.
      * exists []. rewrite app_nil_r. repeat split; auto.
      * exists [the_request w vid mr]. split; [reflexivity|]. split; [cbn; lia|].
        constructor; [|constructor]. cbn [videoId the_request].
        split; [exact (extract_video_id_token _ E)|reflexivity].
    + exists []. unfold get_comments. rewrite E. cbn [snd raise].
      rewrite app_nil_r. repeat split; auto.
  - destruct (extract_video_id s) as [vid|] eqn:E.
    + rewrite (@get_comments_resolved w s vid mr E).
      destruct (respond_status w vid mr tr) as [S|S]; rewrite S; discriminate.
    + intros _. unfold get_comments. rewrite E. reflexivity.
  - destruct (Nat.eq_dec (List.length s) 11) as [L|L].
    + rewrite (@get_comments_by_id_checked w s mr L).
      destruct (respond_status w s mr tr) as [S|S]; rewrite S; discriminate.
    + intros _. unfold get_comments_by_id.
      destruct (Nat.eqb_spec (List.length s) 11); [contradiction|reflexivity].
Qed.

End RouteCalls.
